(** * zen: a voice chat turn, server route and browser client

    Shallow embedding of
    - [src/app/api/chat/route.ts]: the [POST] handler that transcribes an
      uploaded recording, asks the chat model for a reply and synthesises it;
    - [src/app/page.tsx]: the recorder component ([startRecording], the
      recorder's [ondataavailable], [onstop] and [onerror] handlers,
      [stopRecording], [replayAudio] and the cleanup on unmount).

    The three OpenAI calls, [JSON.parse], [Buffer.toString('base64')], [fetch]
    and media playback are outside the repository: they are section variables,
    and every call made to a capability is recorded in a trace. *)

From Stdlib Require Import List Arith NArith Bool String Ascii Lia DecimalString.
From Corelib Require Import PrimFloat.
Import ListNotations.

Set Implicit Arguments.
Set Warnings "-register-all".

(** ** JavaScript values the two files compute with *)
Module Js.

(** A JavaScript string is a sequence of UTF-16 code units. *)
Definition jsstring := list N.

Definition lit (s : string) : jsstring :=
  map N_of_ascii (list_ascii_of_string s).

Definition eqb (a b : jsstring) : bool :=
  if list_eq_dec N.eq_dec a b then true else false.

(** [a || b] on strings: the empty string is the only falsy one. *)
Definition or_else (a b : jsstring) : jsstring :=
  match a with [] => b | _ => a end.

(** ECMAScript WhiteSpace and LineTerminator code points, what
    [String.prototype.trim] strips. All of them are single code units. *)
Definition isWhiteSpace (c : N) : bool :=
  ((9 <=? c) && (c <=? 13)        (* TAB, LF, VT, FF, CR *)
   || (c =? 32)                   (* SP *)
   || (c =? 160)                  (* NBSP *)
   || (c =? 5760)                 (* U+1680 *)
   || ((8192 <=? c) && (c <=? 8202))  (* U+2000 .. U+200A *)
   || (c =? 8232) || (c =? 8233)  (* LS, PS *)
   || (c =? 8239) || (c =? 8287)  (* U+202F, U+205F *)
   || (c =? 12288)                (* U+3000 *)
   || (c =? 65279))%N.            (* ZWNBSP / BOM *)

Fixpoint trimStart (s : jsstring) : jsstring :=
  match s with
  | c :: s' => if isWhiteSpace c then trimStart s' else s
  | [] => []
  end.

Definition trimEnd (s : jsstring) : jsstring := rev (trimStart (rev s)).

Definition trim (s : jsstring) : jsstring := trimEnd (trimStart s).

Fixpoint startsWith (s p : jsstring) : bool :=
  match p, s with
  | [], _ => true
  | x :: p', y :: s' => (x =? y)%N && startsWith s' p'
  | _ :: _, [] => false
  end.

Fixpoint includes (s p : jsstring) : bool :=
  startsWith s p || match s with [] => false | _ :: s' => includes s' p end.

(** Number to string for a non-negative integer, as a template literal
    renders [response.status]. *)
Definition ofN (n : N) : jsstring := lit (NilZero.string_of_uint (N.to_uint n)).

(** What a [throw] carries: an [Error] object, here [Exception]. Handlers in the two files only
    ever read [message]. *)
Record Exception := mkException { name : jsstring; message : jsstring; stack : jsstring }.

Definition TypeError (m : string) : Exception :=
  mkException (lit "TypeError") (lit m) [].

(** A value produced by [JSON.parse] or [response.json()]. An object keeps its
    own properties in order, each key once. *)
Inductive Value :=
| Null
| Bool (b : bool)
| Num (x : float)
| Str (s : jsstring)
| Arr (elems : list Value)
| Obj (props : list (jsstring * Value)).

Definition truthy (v : Value) : bool :=
  match v with
  | Null => false
  | Bool b => b
  | Num x => negb (PrimFloat.eqb x PrimFloat.zero || PrimFloat.is_nan x)
  | Str s => negb (eqb s [])
  | Arr _ | Obj _ => true
  end.

Fixpoint lookup (k : jsstring) (props : list (jsstring * Value)) : option Value :=
  match props with
  | [] => None
  | (k', v) :: rest => if eqb k' k then Some v else lookup k rest
  end.

(** [v.k] for a key that no prototype defines: [None] is [undefined]; reading
    a property of [null] throws (the message is V8's). *)
Definition get (v : Value) (k : string) : Exception + option Value :=
  match v with
  | Null => inl (TypeError ("Cannot read properties of null (reading '" ++ k ++ "')"))
  | Obj props => inr (lookup (lit k) props)
  | _ => inr None
  end.

(** Truthiness of a possibly [undefined] value. *)
Definition truthy_opt (v : option Value) : bool :=
  match v with Some x => truthy x | None => false end.

(** [typeof v === 'string'] for a possibly [undefined] value. *)
Definition as_string (v : option Value) : option jsstring :=
  match v with Some (Str s) => Some s | _ => None end.

(** Iterating a string yields its code points: a high surrogate followed by a
    low one is one element. *)
Fixpoint codePoints (s : jsstring) : list jsstring :=
  match s with
  | [] => []
  | h :: rest =>
      match rest with
      | l :: rest' =>
          if ((55296 <=? h) && (h <=? 56319) && (56320 <=? l) && (l <=? 57343))%N
          then [h; l] :: codePoints rest'
          else [h] :: codePoints rest
      | [] => [[h]]
      end
  end.

End Js.

(** ** The server route: [src/app/api/chat/route.ts] *)
Module Route.
Import Js.

(** The uploaded [File]: [size] is the length of its content. *)
Record File := { file_name : jsstring; file_type : jsstring; file_bytes : list N }.

Definition file_size (f : File) : N := N.of_nat (List.length (file_bytes f)).

(** What [formData.get] returns for a field that is present. *)
Inductive FormDataEntryValue :=
| EntryFile (f : File)
| EntryString (s : jsstring).

(** The two fields the handler reads; [None] is the [null] that
    [formData.get] gives for an absent field. *)
Record FormData := {
  get_audio : option FormDataEntryValue;
  get_history : option FormDataEntryValue }.

(** [request.formData()] rejects when the body is not form data. *)
Record NextRequest := { formData : Exception + FormData }.

Inductive Voice := alloy | echo | fable | onyx | nova | shimmer.

(** The part of a chat completion that line 113 reads:
    [chatCompletion.choices[0]?.message?.content]. *)
Record ChatCompletionMessage := { content : option jsstring }.
Record Choice := { choice_message : option ChatCompletionMessage }.
Record ChatCompletion := { choices : list Choice }.

(** One call to an OpenAI capability, with what it answered ([inl]: it threw). *)
Inductive Call :=
| Transcribe (file : File) (result : Exception + jsstring)
| ChatComplete (messages : list Value) (result : Exception + ChatCompletion)
| Speech (voice : Voice) (input : jsstring) (result : Exception + list N).

(** The body given to [NextResponse.json], one shape per [return]. *)
Inductive Body :=
| Turn (userTranscript llmTextResponse : jsstring) (audioBase64 : option jsstring)
| ClientError (error : jsstring)
| ServerError (error details : jsstring).

Record NextResponse := { body : Body; status : N }.

Definition json (b : Body) (s : N) : NextResponse := {| body := b; status := s |}.

(** *** Exceptions and the call trace

    A computation yields the calls it made and either the thrown error or its
    value: [await] of a rejected promise and [throw] are both [inl]. *)
Definition Eff (A : Type) : Type := (list Call * (Exception + A))%type.

Definition ret {A} (a : A) : Eff A := ([], inr a).

Definition throw {A} (e : Exception) : Eff A := ([], inl e).

Definition await {A} (r : Exception + A) : Eff A := ([], r).

Definition bind {A B} (m : Eff A) (k : A -> Eff B) : Eff B :=
  match m with
  | (t, inl e) => (t, inl e)
  | (t, inr a) => let (t', r) := k a in (t ++ t', r)
  end.

(** [try { m } catch (e) { h e }] *)
Definition try_catch {A} (m : Eff A) (h : Exception -> Eff A) : Eff A :=
  match m with
  | (t, inl e) => let (t', r) := h e in (t ++ t', r)
  | (t, inr a) => (t, inr a)
  end.

(** The outermost [try]/[catch] of a handler whose [catch] only returns. *)
Definition try_return {A} (m : Eff A) (h : Exception -> A) : list Call * A :=
  match m with
  | (t, inl e) => (t, h e)
  | (t, inr a) => (t, a)
  end.

Declare Scope eff_scope.
Delimit Scope eff_scope with eff.
Notation "x <- m ;; k" := (bind m (fun x => k))
  (at level 100, m at next level, right associativity) : eff_scope.
Open Scope eff_scope.

Definition failureSentinel : jsstring := lit "[Audio could not be transcribed]".
Definition couldNotTranscribe : jsstring :=
  lit "Sorry, I couldn't understand the audio. Please try again.".
Definition didNotCatch : jsstring :=
  lit "Sorry, I didn't catch that. Could you please speak clearly?".
Definition systemPrompt : jsstring :=
  lit "You are a helpful and concise voice assistant. Respond clearly and naturally.".
Definition couldNotGenerate : jsstring :=
  lit "Sorry, I could not generate a response at this moment.".
Definition apology : jsstring :=
  lit "Sorry, I encountered an error while processing your request.".

(** An [ApiChatMessage] object literal. *)
Definition ApiChatMessage (role : string) (text : jsstring) : Value :=
  Obj [(lit "role", Str (lit role)); (lit "content", Str text)].

(** [String(v)] of a form entry, which [JSON.parse] applies to its argument. *)
Definition entryToString (e : FormDataEntryValue) : jsstring :=
  match e with
  | EntryString s => s
  | EntryFile _ => lit "[object File]"
  end.

(** Truthiness of [formData.get(..)]: [null] and the empty string are falsy. *)
Definition entryTruthy (e : option FormDataEntryValue) : bool :=
  match e with
  | None => false
  | Some (EntryString s) => negb (eqb s [])
  | Some (EntryFile _) => true
  end.

(** [...conversationHistory] inside the array literal of line 99: arrays and
    strings are iterable, nothing else that [JSON.parse] returns is. *)
Definition spread (conversationHistory : Value) : Eff (list Value) :=
  match conversationHistory with
  | Arr elems => ret elems
  | Str s => ret (map Str (codePoints s))
  | _ => throw (TypeError "conversationHistory is not iterable")
  end.

(** The condition of line 59. *)
Definition emptyOrFailed (userTranscript : jsstring) : bool :=
  eqb userTranscript []
  || (N.of_nat (List.length (trim userTranscript)) <? 1)%N
  || eqb userTranscript failureSentinel.

(** [chatCompletion.choices[0]?.message?.content?.trim() || ''] *)
Definition firstContent (chatCompletion : ChatCompletion) : jsstring :=
  match choices chatCompletion with
  | {| choice_message := Some {| content := Some text |} |} :: _ => or_else (trim text) []
  | _ => []
  end.

Section Handler.

(** [JSON.parse] and [Buffer.prototype.toString('base64')]. *)
Variable JSON_parse : jsstring -> Exception + Value.
Variable toBase64 : list N -> jsstring.

(** The three OpenAI capabilities. The model names and the response format
    are constants of the call sites; [audio_speech_create] stands for
    [openai.audio.speech.create] followed by [arrayBuffer()], which sit in
    the same [try]. *)
Variable audio_transcriptions_create : File -> Exception + jsstring.
Variable chat_completions_create : list Value -> Exception + ChatCompletion.
Variable audio_speech_create : Voice -> jsstring -> Exception + list N.

Definition transcribe (file : File) : Eff jsstring :=
  let r := audio_transcriptions_create file in ([Transcribe file r], r).

Definition chat (messages : list Value) : Eff ChatCompletion :=
  let r := chat_completions_create messages in ([ChatComplete messages r], r).

Definition speech (voice : Voice) (input : jsstring) : Eff (list N) :=
  let r := audio_speech_create voice input in ([Speech voice input r], r).

(** Line 24: [historyString ? JSON.parse(historyString) : []]. *)
Definition parseHistory (historyString : option FormDataEntryValue) : Eff Value :=
  match historyString with
  | Some e => if entryTruthy (Some e) then await (JSON_parse (entryToString e))
              else ret (Arr [])
  | None => ret (Arr [])
  end.

(** Lines 59-93: the clarification reply for an empty or failed transcript. *)
Definition clarification (userTranscript : jsstring) : Eff NextResponse :=
  let isTranscriptionError := eqb userTranscript failureSentinel in
  let errorMessage :=
    if isTranscriptionError then couldNotTranscribe else didNotCatch in
  try_catch
    (errorTtsAudioBuffer <- speech alloy errorMessage ;;
     let errorAudioBase64 := toBase64 errorTtsAudioBuffer in
     ret (json (Turn (or_else userTranscript []) errorMessage
                     (Some errorAudioBase64)) 200))
    (fun ttsError =>
     ret (json (Turn (or_else userTranscript []) errorMessage None) 200)).

(** Lines 105-124: the reply text, with its two fallbacks. *)
Definition completion (messages : list Value) : Eff jsstring :=
  try_catch
    (chatCompletion <- chat messages ;;
     let llmTextResponse := firstContent chatCompletion in
     ret (if eqb llmTextResponse [] then couldNotGenerate else llmTextResponse))
    (fun llmError => ret apology).

(** Lines 129-150: speech for the reply, [null] when synthesis fails or the
    text is empty. *)
Definition synthesis (llmTextResponse : jsstring) : Eff (option jsstring) :=
  if negb (eqb llmTextResponse []) then
    try_catch
      (ttsAudioBuffer <- speech nova llmTextResponse ;;
       ret (Some (toBase64 ttsAudioBuffer)))
      (fun ttsError => ret None)
  else ret None.

(** Lines 96-159: the normal branch. *)
Definition reply (conversationHistory : Value) (userTranscript : jsstring)
  : Eff NextResponse :=
  history <- spread conversationHistory ;;
  let messages :=
    ApiChatMessage "system" systemPrompt
      :: history ++ [ApiChatMessage "user" userTranscript] in
  llmTextResponse <- completion messages ;;
  audioBase64 <- synthesis llmTextResponse ;;
  ret (json (Turn userTranscript llmTextResponse audioBase64) 200).

(** Lines 20-159: the body of the outer [try]. *)
Definition handle (request : NextRequest) : Eff NextResponse :=
  data <- await (formData request) ;;
  let audioFile := get_audio data in
  let historyString := get_history data in
  conversationHistory <- parseHistory historyString ;;
  if negb (entryTruthy audioFile) then
    ret (json (ClientError (lit "No audio file provided")) 400)
  else
    match audioFile with
    | Some (EntryFile file) =>
        userTranscript <-
          try_catch (transcribe file) (fun sttError => ret failureSentinel) ;;
        if emptyOrFailed userTranscript then clarification userTranscript
        else reply conversationHistory userTranscript
    | _ =>
        (* the cast of line 22 is unchecked: a text field has no
           [arrayBuffer] method, so line 36 throws *)
        throw (TypeError "audioFile.arrayBuffer is not a function")
    end.

(** Lines 161-166: the response of the outer [catch]. *)
Definition failure (error : Exception) : NextResponse :=
  json (ServerError (lit "Failed to process audio chat")
                    (or_else (message error) (lit "Unknown server error"))) 500.

(** The [POST] handler: the calls it made and the response it returned. *)
Definition POST (request : NextRequest) : list Call * NextResponse :=
  try_return (handle request) failure.

(** What line 56 leaves in [userTranscript], given the transcription call's
    answer. *)
Definition transcriptOf (r : Exception + jsstring) : jsstring :=
  match r with inr text => text | inl _ => failureSentinel end.

(** The [errorMessage] of line 61. *)
Definition clarificationFor (userTranscript : jsstring) : jsstring :=
  if eqb userTranscript failureSentinel then couldNotTranscribe else didNotCatch.

(** What line 124 leaves in [llmTextResponse], given the chat call's answer. *)
Definition replyTextOf (r : Exception + ChatCompletion) : jsstring :=
  match r with
  | inr chatCompletion =>
      if eqb (firstContent chatCompletion) [] then couldNotGenerate
      else firstContent chatCompletion
  | inl _ => apology
  end.

(** The [audioBase64] a speech call's answer gives. *)
Definition audioOf (r : Exception + list N) : option jsstring :=
  match r with inr bytes => Some (toBase64 bytes) | inl _ => None end.

(** The paths through the handler, each with its trace and its response;
    [RouteFacts.POST_outcome] shows that every run of [POST] is one of them. *)
Inductive Outcome (request : NextRequest) : list Call -> NextResponse -> Prop :=
| NoFormData e :
    formData request = inl e ->
    Outcome request [] (failure e)
| BadHistory data entry e :
    formData request = inr data ->
    get_history data = Some entry -> entryTruthy (Some entry) = true ->
    JSON_parse (entryToString entry) = inl e ->
    Outcome request [] (failure e)
| NoAudio data history :
    formData request = inr data ->
    parseHistory (get_history data) = ret history ->
    entryTruthy (get_audio data) = false ->
    Outcome request [] (json (ClientError (lit "No audio file provided")) 400)
| NotAFile data history s :
    formData request = inr data ->
    parseHistory (get_history data) = ret history ->
    get_audio data = Some (EntryString s) -> s <> [] ->
    Outcome request [] (failure (TypeError "audioFile.arrayBuffer is not a function"))
| Clarified data history file :
    formData request = inr data ->
    parseHistory (get_history data) = ret history ->
    get_audio data = Some (EntryFile file) ->
    let stt := audio_transcriptions_create file in
    let userTranscript := transcriptOf stt in
    emptyOrFailed userTranscript = true ->
    let errorMessage := clarificationFor userTranscript in
    let tts := audio_speech_create alloy errorMessage in
    Outcome request [Transcribe file stt; Speech alloy errorMessage tts]
      (json (Turn userTranscript errorMessage (audioOf tts)) 200)
| NotIterable data history file e :
    formData request = inr data ->
    parseHistory (get_history data) = ret history ->
    get_audio data = Some (EntryFile file) ->
    let stt := audio_transcriptions_create file in
    emptyOrFailed (transcriptOf stt) = false ->
    spread history = throw e ->
    Outcome request [Transcribe file stt] (failure e)
| Replied data history file previous :
    formData request = inr data ->
    parseHistory (get_history data) = ret history ->
    get_audio data = Some (EntryFile file) ->
    let stt := audio_transcriptions_create file in
    let userTranscript := transcriptOf stt in
    emptyOrFailed userTranscript = false ->
    spread history = ret previous ->
    let messages :=
      ApiChatMessage "system" systemPrompt
        :: previous ++ [ApiChatMessage "user" userTranscript] in
    let llm := chat_completions_create messages in
    let llmTextResponse := replyTextOf llm in
    let tts := audio_speech_create nova llmTextResponse in
    Outcome request
      [Transcribe file stt; ChatComplete messages llm; Speech nova llmTextResponse tts]
      (json (Turn userTranscript llmTextResponse (audioOf tts)) 200).

(** The history field is absent, empty, or parses. *)
Definition historyParses (data : FormData) : Prop :=
  match get_history data with
  | None => True
  | Some entry =>
      entryTruthy (Some entry) = false
      \/ exists history, JSON_parse (entryToString entry) = inr history
  end.

End Handler.

End Route.

(** ** The browser client: [src/app/page.tsx] *)
Module Page.
Import Js.

Inductive Role := You | Assistant | System | Error.

(** [audio] is [None] when the property is absent ([undefined]). *)
Record ConversationMessage := {
  role : Role;
  text : jsstring;
  audio : option Value }.

Inductive ApiRole := user | assistant | system.

Record ApiChatMessage := { api_role : ApiRole; content : jsstring }.

Record Blob := { blob_bytes : list N; blob_type : jsstring }.

Definition size (b : Blob) : N := N.of_nat (List.length (blob_bytes b)).

(** [new Blob(chunks, { type })] concatenates the chunks. *)
Definition newBlob (chunks : list Blob) (type : jsstring) : Blob :=
  {| blob_bytes := List.concat (map blob_bytes chunks); blob_type := type |}.

(** The multipart body of line 109: the [audio] part with its file name, and
    the [history] part, kept as the array that [JSON.stringify] serialises. *)
Record FormData := {
  fd_audio : Blob;
  fd_filename : jsstring;
  fd_history : list ApiChatMessage }.

(** What [fetch] resolves to. [response.json()] rejects when the body is not
    JSON. *)
Record Response := {
  resp_status : N;
  statusText : jsstring;
  resp_json : Exception + Value }.

Definition ok (r : Response) : bool :=
  ((200 <=? resp_status r) && (resp_status r <=? 299))%N.

(** A capture stream, by handle. *)
Definition MediaStream := N.

(** The values of the state variables in the render whose [startRecording]
    ran. [const [status, setStatus] = useState(..)] (line 25) binds [status]
    once per render and [setStatus] does not assign it: it schedules a new
    render, with a new [startRecording] ([useCallback], dependencies on
    line 250). The handlers that a run of [startRecording] installs on the
    recorder keep reading the variables of the render that run came from. *)
Record Render := {
  r_isRecording : bool;
  r_conversation : list ConversationMessage;
  r_status : jsstring }.

(** [MediaRecorder.state] *)
Inductive RecordingState := inactive | recording | paused.

(** [mediaRecorderRef.current]: the recorder with the closure of its
    handlers. *)
Record MediaRecorder := {
  closure : Render;
  mimeType : jsstring;
  rec_state : RecordingState }.

(** What the component does to the outside. *)
Inductive Effect :=
| StopTracks (stream : MediaStream)
| Fetch (body : FormData)
| Play (src : jsstring).

Definition is_fetch (e : Effect) : bool :=
  match e with Fetch _ => true | _ => false end.

(** The component: its four state variables, its four refs, and the log of
    its effects. [audioPlayer] is [None] while the ref is [null], else the
    element's [src]. *)
Record Component := {
  isRecording : bool;
  isLoading : bool;
  conversation : list ConversationMessage;
  status : jsstring;
  mediaRecorder : option MediaRecorder;
  audioChunks : list Blob;
  audioPlayer : option jsstring;
  mediaStream : option MediaStream;
  effects : list Effect }.

Definition setIsRecording (b : bool) (c : Component) : Component :=
  {| isRecording := b; isLoading := isLoading c; conversation := conversation c;
     status := status c; mediaRecorder := mediaRecorder c;
     audioChunks := audioChunks c; audioPlayer := audioPlayer c;
     mediaStream := mediaStream c; effects := effects c |}.

Definition setIsLoading (b : bool) (c : Component) : Component :=
  {| isRecording := isRecording c; isLoading := b; conversation := conversation c;
     status := status c; mediaRecorder := mediaRecorder c;
     audioChunks := audioChunks c; audioPlayer := audioPlayer c;
     mediaStream := mediaStream c; effects := effects c |}.

(** [setConversation(prev => [...prev, ...added])] *)
Definition appendConversation (added : list ConversationMessage) (c : Component)
  : Component :=
  {| isRecording := isRecording c; isLoading := isLoading c;
     conversation := conversation c ++ added;
     status := status c; mediaRecorder := mediaRecorder c;
     audioChunks := audioChunks c; audioPlayer := audioPlayer c;
     mediaStream := mediaStream c; effects := effects c |}.

Definition setStatus (s : jsstring) (c : Component) : Component :=
  {| isRecording := isRecording c; isLoading := isLoading c;
     conversation := conversation c;
     status := s; mediaRecorder := mediaRecorder c;
     audioChunks := audioChunks c; audioPlayer := audioPlayer c;
     mediaStream := mediaStream c; effects := effects c |}.

Definition setMediaRecorder (r : option MediaRecorder) (c : Component) : Component :=
  {| isRecording := isRecording c; isLoading := isLoading c;
     conversation := conversation c;
     status := status c; mediaRecorder := r;
     audioChunks := audioChunks c; audioPlayer := audioPlayer c;
     mediaStream := mediaStream c; effects := effects c |}.

Definition setAudioChunks (chunks : list Blob) (c : Component) : Component :=
  {| isRecording := isRecording c; isLoading := isLoading c;
     conversation := conversation c;
     status := status c; mediaRecorder := mediaRecorder c;
     audioChunks := chunks; audioPlayer := audioPlayer c;
     mediaStream := mediaStream c; effects := effects c |}.

Definition setAudioPlayerSrc (src : jsstring) (c : Component) : Component :=
  {| isRecording := isRecording c; isLoading := isLoading c;
     conversation := conversation c;
     status := status c; mediaRecorder := mediaRecorder c;
     audioChunks := audioChunks c;
     audioPlayer := match audioPlayer c with Some _ => Some src | None => None end;
     mediaStream := mediaStream c; effects := effects c |}.

Definition setMediaStream (s : option MediaStream) (c : Component) : Component :=
  {| isRecording := isRecording c; isLoading := isLoading c;
     conversation := conversation c;
     status := status c; mediaRecorder := mediaRecorder c;
     audioChunks := audioChunks c; audioPlayer := audioPlayer c;
     mediaStream := s; effects := effects c |}.

Definition perform (e : Effect) (c : Component) : Component :=
  {| isRecording := isRecording c; isLoading := isLoading c;
     conversation := conversation c;
     status := status c; mediaRecorder := mediaRecorder c;
     audioChunks := audioChunks c; audioPlayer := audioPlayer c;
     mediaStream := mediaStream c; effects := effects c ++ [e] |}.

(** The state the first render starts from (lines 22-31); the [<audio>]
    element is mounted. *)
Definition initial : Component :=
  {| isRecording := false; isLoading := false; conversation := [];
     status := lit "Click Start Recording"; mediaRecorder := None;
     audioChunks := []; audioPlayer := Some []; mediaStream := None;
     effects := [] |}.

(** The render a click handler comes from. *)
Definition render (c : Component) : Render :=
  {| r_isRecording := isRecording c; r_conversation := conversation c;
     r_status := status c |}.

(** Lines 50-56. *)
Definition supportedTypes : list jsstring :=
  [ lit "audio/webm;codecs=opus"; lit "audio/webm"; lit "audio/ogg;codecs=opus";
    lit "audio/mp4"; lit "audio/aac" ].

(** [s.split(sep)] for a separator of one code unit. *)
Fixpoint split (sep : N) (s : jsstring) : list jsstring :=
  match s with
  | [] => [[]]
  | c :: s' =>
      if (c =? sep)%N then [] :: split sep s'
      else match split sep s' with
           | seg :: segs => (c :: seg) :: segs
           | [] => [[c]]
           end
  end.

(** [mimeType.split('/')[1].split(';')[0]] (line 112); [None] when the
    first split has no second element, where [.split] of [undefined] throws. *)
Definition fileExtension (mimeType : jsstring) : option jsstring :=
  match nth_error (split 47 mimeType) 1 with
  | Some subtype => Some (hd [] (split 59 subtype))
  | None => None
  end.

(** [conversation.slice(-n)] *)
Definition slice_last {A} (n : nat) (l : list A) : list A :=
  skipn (List.length l - n) l.

Definition isUserOrAssistant (msg : ConversationMessage) : bool :=
  match role msg with You | Assistant => true | _ => false end.

Definition toApi (msg : ConversationMessage) : ApiChatMessage :=
  {| api_role := match role msg with You => user | _ => assistant end;
     content := text msg |}.

(** Lines 117-123. *)
Definition historyForApi (conversation : list ConversationMessage)
  : list ApiChatMessage :=
  map toApi (filter isUserOrAssistant (slice_last 8 conversation)).

(** Stop the tracks of the held stream and clear the ref (lines 87-91,
    197-200, 245-248). *)
Definition releaseStream (c : Component) : Component :=
  match mediaStream c with
  | Some s => setMediaStream None (perform (StopTracks s) c)
  | None => c
  end.

Definition newError (m : jsstring) : Exception := mkException (lit "Error") m [].

Definition readyPrompt : jsstring := lit "Ready. Click Start Recording.".
Definition noAudioDetected : jsstring :=
  lit "No audio detected. Please try recording again.".

(** Lines 74-78. *)
Definition ondataavailable (data : Blob) (c : Component) : Component :=
  if (0 <? size data)%N then setAudioChunks (audioChunks c ++ [data]) c else c.

(** Lines 214-224: the recorder's [onerror] handler. *)
Definition onerror (c : Component) : Component :=
  let c := setStatus (lit "Error during recording. Please try again.") c in
  setIsLoading false (setIsRecording false (releaseStream c)).

(** Lines 252-260. *)
Definition stopRecording (c : Component) : Component :=
  match mediaRecorder c with
  | Some r =>
      match rec_state r with
      | recording =>
          setStatus (lit "Stopping recording...")
            (setMediaRecorder
               (Some {| closure := closure r; mimeType := mimeType r;
                        rec_state := inactive |}) c)
      | _ => c
      end
  | None => c
  end.

(** Lines 263-285: the cleanup that runs when the component unmounts. *)
Definition unmount (c : Component) : Component :=
  let c :=
    match mediaRecorder c with
    | Some r =>
        match rec_state r with
        | recording =>
            setMediaRecorder
              (Some {| closure := closure r; mimeType := mimeType r;
                       rec_state := inactive |}) c
        | _ => c
        end
    | None => c
    end in
  releaseStream (setAudioPlayerSrc [] c).

(** Lines 232-248: the [catch] of [startRecording]. *)
Definition startFailed (err : Exception) (c : Component) : Component :=
  let errMsg :=
    if eqb (name err) (lit "NotAllowedError") then
      lit "Microphone permission denied. Please grant permission in browser settings."
    else if eqb (name err) (lit "NotFoundError") then
      lit "No microphone found. Please ensure a microphone is connected and enabled."
    else lit "Could not access microphone." ++ lit " " ++ message err in
  releaseStream (setIsRecording false (setStatus (lit "Error: " ++ errMsg) c)).

(** Lines 35-250. [getUserMedia] is what the permission prompt answered,
    [construct] and [start] whether [new MediaRecorder] and [start()] threw. *)
Definition startRecording (env : Render)
    (getUserMedia : Exception + MediaStream) (isTypeSupported : jsstring -> bool)
    (construct start : option Exception) (c : Component) : Component :=
  if r_isRecording env then c
  else
    let c := match mediaStream c with
             | Some s => perform (StopTracks s) c
             | None => c
             end in
    match getUserMedia with
    | inl err => startFailed err c
    | inr stream =>
        let c := setMediaStream (Some stream) c in
        let c := setStatus (lit "Microphone access granted. Initializing recorder...") c in
        match find isTypeSupported supportedTypes with
        | None =>
            let c := setStatus (lit "Error: No supported audio format found for recording.") c in
            setMediaStream None (perform (StopTracks stream) c)
        | Some mimeType =>
            match construct with
            | Some err => startFailed err c
            | None =>
                let recorder state :=
                  Some {| closure := env; mimeType := mimeType; rec_state := state |} in
                let c := setAudioChunks [] (setMediaRecorder (recorder inactive) c) in
                match start with
                | Some err => startFailed err c
                | None =>
                    let c := setMediaRecorder (recorder recording) c in
                    setStatus (lit "Recording... Click Stop Recording")
                      (setIsRecording true c)
                end
            end
        end
    end.

Section Submission.

(** [fetch('/api/chat', { method: 'POST', body })]: rejects, or resolves to a
    response. [play] tells whether the promise of [audio.play()] resolves.
    [String_of] is the string conversion of a value that is not a string. *)
Variable fetch : FormData -> Exception + Response.
Variable play : jsstring -> bool.
Variable String_of : Value -> jsstring.

(** String conversion of a possibly [undefined] value. *)
Definition toString (v : option Value) : jsstring :=
  match v with
  | Some (Str s) => s
  | Some other => String_of other
  | None => lit "undefined"
  end.

(** Lines 140-150: the message of the error thrown for a non-ok response. *)
Definition errorMsgOf (response : Response) : jsstring :=
  let errorMsg := lit "API request failed with status " ++ ofN (resp_status response) in
  let notJson := errorMsg ++ lit ": " ++ statusText response in
  match resp_json response with
  | inl jsonError => notJson
  | inr errorData =>
      match get errorData "error", get errorData "details" with
      | inr error, inr details =>
          if truthy_opt error then toString error
          else if truthy_opt details then toString details
          else errorMsg
      | _, _ => notJson
      end
  end.

(** Lines 154-189: a response with an ok status. The result is the thrown
    error, or the [src] handed to [play()] when playback was started. *)
Definition received (response : Response) (c : Component)
  : Component * (Exception + option jsstring) :=
  match resp_json response with
  | inl notJson => (c, inl notJson)
  | inr data =>
      let c := setStatus (lit "Received response.") c in
      match get data "userTranscript", get data "llmTextResponse",
            get data "audioBase64" with
      | inr userTranscript, inr llmTextResponse, inr audioBase64 =>
          match as_string userTranscript, as_string llmTextResponse with
          | Some userTranscript, Some llmTextResponse =>
              let newUserMessage :=
                {| role := You;
                   text := or_else userTranscript (lit "(No transcription)");
                   audio := None |} in
              let newAssistantMessage :=
                {| role := Assistant; text := llmTextResponse;
                   audio := audioBase64 |} in
              let c := appendConversation [newUserMessage; newAssistantMessage] c in
              match truthy_opt audioBase64, audioPlayer c with
              | true, Some _ =>
                  let audioSrc := lit "data:audio/mp3;base64," ++ toString audioBase64 in
                  (perform (Play audioSrc) (setAudioPlayerSrc audioSrc c),
                   inr (Some audioSrc))
              | _, _ =>
                  if negb (eqb llmTextResponse []) then
                    (setStatus (lit "Received text response. Click Start Recording when ready.") c,
                     inr None)
                  else
                    (setStatus (lit "Processing complete. Click Start Recording.") c,
                     inr None)
              end
          | _, _ =>
              (c, inl (newError (lit "Invalid response format received from API.")))
          end
      | inl typeError, _, _ => (c, inl typeError)
      | _, inl typeError, _ => (c, inl typeError)
      | _, _, inl typeError => (c, inl typeError)
      end
  end.

(** Lines 128-189: the [try] block. *)
Definition tryBlock (formData : FormData) (c : Component)
  : Component * (Exception + option jsstring) :=
  let c := perform (Fetch formData) c in
  match fetch formData with
  | inl networkError => (c, inl networkError)
  | inr response =>
      if negb (ok response) then (c, inl (newError (errorMsgOf response)))
      else received response c
  end.

(** Lines 191-200: the [catch] block. *)
Definition catchBlock (error : Exception) (c : Component) : Component :=
  let c := setStatus (lit "Error: " ++ message error) c in
  let c := appendConversation
             [ {| role := Error;
                  text := lit "Processing failed: " ++ message error;
                  audio := None |} ] c in
  releaseStream c.

(** Lines 201-210: the [finally] block. [status] on line 205 is the variable
    of the render the handler was created in. *)
Definition finallyBlock (env : Render) (c : Component) : Component :=
  let c := setIsLoading false c in
  let c := setIsRecording false c in
  let c :=
    if negb (startsWith (r_status env) (lit "Error"))
       && negb (includes (r_status env) (lit "Replay"))
       && negb (includes (r_status env) (lit "Playing"))
    then setStatus readyPrompt c
    else c in
  setAudioChunks [] c.

(** The state when the [try] and its [catch] are done, before [finally]. *)
Definition tryCatch (formData : FormData) (c : Component)
  : Component * option jsstring :=
  match tryBlock formData c with
  | (c, inr playing) => (c, playing)
  | (c, inl error) => (catchBlock error c, None)
  end.

(** Lines 81-211: the [onstop] handler, up to the end of its [finally]. The
    second component is the [src] of a playback that was started and has
    not settled yet. *)
Definition onstop (r : MediaRecorder) (c : Component)
  : Component * option jsstring :=
  let c := setIsLoading true c in
  let c := setStatus (lit "Recording stopped. Processing audio...") c in
  let c := releaseStream c in
  match audioChunks c with
  | [] =>
      (setIsRecording false (setIsLoading false (setStatus noAudioDetected c)),
       None)
  | _ :: _ =>
      let audioBlob := newBlob (audioChunks c) (mimeType r) in
      match fileExtension (mimeType r) with
      | None => (c, None) (* a TypeError leaves the handler on line 112 *)
      | Some ext =>
          let formData :=
            {| fd_audio := audioBlob;
               fd_filename := lit "recording." ++ ext;
               fd_history := historyForApi (r_conversation (closure r)) |} in
          let (c, playing) := tryCatch formData c in
          (finallyBlock (closure r) c, playing)
      end
  end.

(** Lines 174-181: the callbacks of the promise of [play()], which run once
    playback has started or was refused, after [onstop] is done. *)
Definition settled (playing : option jsstring) (c : Component) : Component :=
  match playing with
  | Some audioSrc =>
      if play audioSrc
      then setStatus (lit "Playing response... Click Start Recording when ready.") c
      else setStatus (lit "Received response. Click 'Replay Audio' to listen.") c
  | None => c
  end.

(** Lines 288-296. *)
Definition replayAudio (audioBase64 : option Value) (c : Component) : Component :=
  match truthy_opt audioBase64, audioPlayer c with
  | true, Some _ =>
      let audioSrc := lit "data:audio/mp3;base64," ++ toString audioBase64 in
      perform (Play audioSrc) (setAudioPlayerSrc audioSrc c)
  | _, _ => c
  end.

(** A whole stop event: the handler, then the playback callback. *)
Definition stopped (r : MediaRecorder) (c : Component) : Component :=
  let (c, playing) := onstop r c in settled playing c.

End Submission.

(** The effects a handler added when it took the component from [c] to [c']. *)
Definition performed (c c' : Component) : list Effect :=
  skipn (List.length (effects c)) (effects c').

(** [c'] has the effects of [c] and then only effects that satisfy [P]. *)
Definition extends (P : Effect -> Prop) (c c' : Component) : Prop :=
  exists added, effects c' = effects c ++ added /\ Forall P added.

End Page.

(** ** The component over time, and the two files together *)
Module Session.
Import Js Page.

(** What the browser and the user do to the component. Each event carries
    what the platform answers while its handler runs. *)
Inductive Event :=
| ClickStart (getUserMedia : Exception + MediaStream)
             (isTypeSupported : jsstring -> bool)
             (construct start : option Exception)
| ClickStop
| DataAvailable (data : Blob)
| Stopped (answer : Exception + Response) (played : bool)
| RecorderError
| ClickReplay (audioBase64 : option Value)
| Unmount.

Definition sends (e : Event) : bool :=
  match e with Stopped _ _ => true | _ => false end.

Section Run.

Variable String_of : Value -> jsstring.

(** The [<audio>] element leaves the document with the component: React
    sets [audioPlayerRef.current] back to [null] when it removes the element,
    which is before the cleanup of an effect runs. *)
Definition detachPlayer (c : Component) : Component :=
  {| isRecording := isRecording c; isLoading := isLoading c;
     conversation := conversation c;
     status := status c; mediaRecorder := mediaRecorder c;
     audioChunks := audioChunks c; audioPlayer := None;
     mediaStream := mediaStream c; effects := effects c |}.

(** The handler an event runs. A click runs the handler of the current
    render; the recorder's events run the handlers of the recorder in
    [mediaRecorderRef], if there is one; the cleanup of lines 263-285 runs
    once the player is detached, so its lines 273-277 find no player. *)
Definition step (e : Event) (c : Component) : Component :=
  match e with
  | ClickStart getUserMedia isTypeSupported construct start =>
      startRecording (render c) getUserMedia isTypeSupported construct start c
  | ClickStop => stopRecording c
  | DataAvailable data =>
      match mediaRecorder c with
      | Some _ => ondataavailable data c
      | None => c
      end
  | Stopped answer played =>
      match mediaRecorder c with
      | Some r => stopped (fun _ => answer) (fun _ => played) String_of r c
      | None => c
      end
  | RecorderError =>
      match mediaRecorder c with
      | Some _ => onerror c
      | None => c
      end
  | ClickReplay audioBase64 => replayAudio String_of audioBase64 c
  | Unmount => unmount (detachPlayer c)
  end.

Definition run (events : list Event) (c : Component) : Component :=
  fold_left (fun c e => step e c) events c.

End Run.

(** A transcript made of exchanges (a user turn with some text and no audio,
    then the assistant's turn) and of error turns. *)
Inductive Exchanges : list ConversationMessage -> Prop :=
| Exchanges_nil : Exchanges []
| Exchanges_turn you reply rest :
    role you = You -> text you <> [] -> audio you = None ->
    role reply = Assistant ->
    Exchanges rest -> Exchanges (you :: reply :: rest)
| Exchanges_error failed rest :
    role failed = Error -> audio failed = None ->
    startsWith (text failed) (lit "Processing failed: ") = true ->
    Exchanges rest -> Exchanges (failed :: rest).

(** What a request of the component looks like. *)
Definition wellFormedRequest (body : FormData) : Prop :=
  (0 < size (fd_audio body))%N
  /\ In (blob_type (fd_audio body)) supportedTypes
  /\ In (fd_filename body)
        [lit "recording.webm"; lit "recording.ogg"; lit "recording.mp4";
         lit "recording.aac"]
  /\ List.length (fd_history body) <= 8.

(** The value [response.json()] gives the client for a body that the route
    passed to [NextResponse.json]: the object literal of lines 78-82, 87-91
    and 155-159, of line 29, or of line 165. *)
Definition bodyJson (b : Route.Body) : Value :=
  match b with
  | Route.Turn userTranscript llmTextResponse audioBase64 =>
      Obj [ (lit "userTranscript", Str userTranscript);
            (lit "llmTextResponse", Str llmTextResponse);
            (lit "audioBase64",
              match audioBase64 with Some a => Str a | None => Null end) ]
  | Route.ClientError error => Obj [(lit "error", Str error)]
  | Route.ServerError error details =>
      Obj [(lit "error", Str error); (lit "details", Str details)]
  end.

(** The route's response as [fetch] resolves it. *)
Definition delivered (statusText : jsstring) (r : Route.NextResponse) : Response :=
  {| resp_status := Route.status r;
     statusText := statusText;
     resp_json := inr (bodyJson (Route.body r)) |}.

(** The turns the client adds for a body of the route. *)
Definition turnsFor (b : Route.Body) : list ConversationMessage :=
  match b with
  | Route.Turn userTranscript llmTextResponse audioBase64 =>
      [ {| role := You;
           text := or_else userTranscript (lit "(No transcription)");
           audio := None |};
        {| role := Assistant; text := llmTextResponse;
           audio := Some match audioBase64 with Some a => Str a | None => Null end |} ]
  | Route.ClientError error | Route.ServerError error _ =>
      [ {| role := Error; text := lit "Processing failed: " ++ error; audio := None |} ]
  end.

(** The component when [onstop] reaches line 93: loading, the stop message
    shown, the stream released. *)
Definition atSubmission (c : Component) : Component :=
  releaseStream
    (setStatus (lit "Recording stopped. Processing audio...") (setIsLoading true c)).

(** The request of lines 104-124. *)
Definition requestOf (r : MediaRecorder) (c : Component) (ext : jsstring) : FormData :=
  {| fd_audio := newBlob (audioChunks c) (mimeType r);
     fd_filename := lit "recording." ++ ext;
     fd_history := historyForApi (r_conversation (closure r)) |}.

(** The effect of releasing the stream that [c] holds. *)
Definition released (c : Component) : list Effect :=
  match mediaStream c with Some s => [StopTracks s] | None => [] end.

(** The turn that the [catch] of line 191 appends. *)
Definition errorTurn (error : Exception) : ConversationMessage :=
  {| role := Error; text := lit "Processing failed: " ++ message error; audio := None |}.

(** The turns that lines 159-167 append for a response: none unless both
    texts are strings. *)
Definition appended (response : Response) : list ConversationMessage :=
  match resp_json response with
  | inr data =>
      match get data "userTranscript", get data "llmTextResponse",
            get data "audioBase64" with
      | inr userTranscript, inr llmTextResponse, inr audioBase64 =>
          match as_string userTranscript, as_string llmTextResponse with
          | Some userTranscript, Some llmTextResponse =>
              [ {| role := You;
                   text := or_else userTranscript (lit "(No transcription)");
                   audio := None |};
                {| role := Assistant; text := llmTextResponse; audio := audioBase64 |} ]
          | _, _ => []
          end
      | _, _, _ => []
      end
  | inl _ => []
  end.

(** What holds of the component between any two events. *)
Definition healthy (c : Component) : Prop :=
  isLoading c = false
  /\ (forall r, mediaRecorder c = Some r -> In (mimeType r) supportedTypes)
  /\ Forall (fun chunk => (0 < size chunk)%N) (audioChunks c)
  /\ Exchanges (conversation c)
  /\ Forall (fun e => match e with Fetch body => wellFormedRequest body | _ => True end)
            (effects c).

End Session.

(** ** Stand-ins for the platform and the capabilities, for concrete runs *)
Module Fixture.
Import Js.

Definition SyntaxError (m : string) : Exception :=
  mkException (lit "SyntaxError") (lit m) (lit "SyntaxError: at JSON.parse (<anonymous>)").

(** [JSON.parse] on the inputs the runs below use: it accepts [[]], and
    rejects the empty string, a lone brace and the string of a [File]. The
    message of the error for a lone brace stands for the engine's. *)
Definition JSON_parse (s : jsstring) : Exception + Value :=
  if eqb s (lit "[]") then inr (Arr [])
  else if eqb s [] then inl (SyntaxError "Unexpected end of JSON input")
  else inl (SyntaxError "Unexpected token in JSON").

Definition base64Alphabet : jsstring :=
  lit "ABCDEFGHIJKLMNOPQRSTUVWXYZabcdefghijklmnopqrstuvwxyz0123456789+/".

Definition sextet (n : N) : N := nth (N.to_nat n) base64Alphabet 61%N.

(** Base64 of a sequence of bytes, with [=] padding. *)
Fixpoint toBase64 (bytes : list N) : jsstring :=
  (match bytes with
   | a :: b :: c :: rest =>
       sextet (a / 4) :: sextet ((a mod 4) * 16 + b / 16)
         :: sextet ((b mod 16) * 4 + c / 64) :: sextet (c mod 64) :: toBase64 rest
   | [a; b] =>
       [sextet (a / 4); sextet ((a mod 4) * 16 + b / 16); sextet ((b mod 16) * 4); 61]
   | [a] => [sextet (a / 4); sextet ((a mod 4) * 16); 61; 61]
   | [] => []
   end)%N.

Definition recording : Route.File :=
  {| Route.file_name := lit "recording.webm";
     Route.file_type := lit "audio/webm;codecs=opus";
     Route.file_bytes := [26; 69; 223; 163]%N |}.

(** A transcription service that hears a question, and one that is down. *)
Definition hears (text : string) (_ : Route.File) : Exception + jsstring :=
  inr (lit text).
Definition deaf (_ : Route.File) : Exception + jsstring :=
  inl (mkException (lit "APIConnectionError") (lit "Connection error.") []).

(** A chat model with one answer, and one that is down. *)
Definition answers (text : string) (_ : list Value) : Exception + Route.ChatCompletion :=
  inr {| Route.choices :=
           [ {| Route.choice_message := Some {| Route.content := Some (lit text) |} |} ] |}.
Definition mute (_ : list Value) : Exception + Route.ChatCompletion :=
  inl (mkException (lit "RateLimitError") (lit "429 Too Many Requests") []).

(** A synthesiser that returns three bytes of MP3 for any text. *)
Definition speaks (_ : Route.Voice) (_ : jsstring) : Exception + list N :=
  inr [73; 68; 51]%N.

(** A request with a recording and the history the client sends first. *)
Definition upload (history : option Route.FormDataEntryValue) : Route.NextRequest :=
  {| Route.formData :=
       inr {| Route.get_audio := Some (Route.EntryFile recording);
              Route.get_history := history |} |}.

(** A request with a history field and no audio part. *)
Definition noAudio (history : string) : Route.NextRequest :=
  {| Route.formData :=
       inr {| Route.get_audio := None;
              Route.get_history := Some (Route.EntryString (lit history)) |} |}.

(** A [fetch] that fails before any response arrives. *)
Definition offline (_ : Page.FormData) : Exception + Page.Response :=
  inl (TypeError "Failed to fetch").

Definition String_of (_ : Value) : jsstring := lit "[object Object]".

Definition chunk : Page.Blob :=
  {| Page.blob_bytes := [26; 69; 223; 163]%N;
     Page.blob_type := lit "audio/webm;codecs=opus" |}.

Definition silence : Page.Blob :=
  {| Page.blob_bytes := []; Page.blob_type := lit "audio/webm;codecs=opus" |}.

(** The handler over the stand-in platform, with the working synthesiser. *)
Definition serve (stt : Route.File -> Exception + jsstring)
    (llm : list Value -> Exception + Route.ChatCompletion)
    (request : Route.NextRequest)
  : list Route.Call * Route.NextResponse :=
  Route.POST JSON_parse toBase64 stt llm speaks request.

(** The history field of a first turn. *)
Definition emptyHistory : option Route.FormDataEntryValue :=
  Some (Route.EntryString (lit "[]")).

Definition hi : Page.ConversationMessage :=
  {| Page.role := Page.You; Page.text := lit "Hi"; Page.audio := None |}.
Definition failed : Page.ConversationMessage :=
  {| Page.role := Page.Error;
     Page.text := lit "Processing failed: Failed to fetch";
     Page.audio := None |}.

(** A component whose transcript has a user turn and an Error turn. *)
Definition afterFailure : Page.Component :=
  Page.appendConversation [hi; failed] Page.initial.

(** The recorder of a recording started from that component. *)
Definition webm : Page.MediaRecorder :=
  {| Page.closure := Page.render afterFailure;
     Page.mimeType := lit "audio/webm;codecs=opus";
     Page.rec_state := Page.recording |}.

(** The request sent for one chunk recorded after a failed turn. *)
Definition resent : Page.FormData :=
  {| Page.fd_audio := Page.newBlob [chunk] (lit "audio/webm;codecs=opus");
     Page.fd_filename := lit "recording.webm";
     Page.fd_history := [ {| Page.api_role := Page.user; Page.content := lit "Hi" |} ] |}.

(** A synthesiser that is down. *)
Definition hoarse (_ : Route.Voice) (_ : jsstring) : Exception + list N :=
  inl (mkException (lit "APIConnectionError") (lit "Connection error.") []).

(** [JSON.parse] that also knows the literal [null]. *)
Definition JSON_parse_null (s : jsstring) : Exception + Value :=
  if eqb s (lit "null") then inr Null else JSON_parse s.

(** A form whose audio part was sent as a text field. *)
Definition audioAsText : Route.NextRequest :=
  {| Route.formData :=
       inr {| Route.get_audio := Some (Route.EntryString (lit "recording.webm"));
              Route.get_history := emptyHistory |} |}.

(** The component of [afterFailure] once one chunk has been captured. *)
Definition recorded : Page.Component := Page.ondataavailable chunk afterFailure.


(** A browser that records MP4 only, and a refused permission prompt. *)
Definition onlyMp4 (type : jsstring) : bool := eqb type (lit "audio/mp4").
Definition denied : Exception :=
  mkException (lit "NotAllowedError") (lit "Permission denied") [].

(** Eight user turns. *)
Definition eightTurns : list Page.ConversationMessage := repeat hi 8.

End Fixture.

(** ** Facts about strings *)
Module JsFacts.
Import Js.

Lemma eqb_eq (a b : jsstring) : eqb a b = true <-> a = b.
Proof.
  unfold eqb. destruct (list_eq_dec N.eq_dec a b); split; congruence.
Qed.

Lemma eqb_neq (a b : jsstring) : eqb a b = false <-> a <> b.
Proof.
  unfold eqb. destruct (list_eq_dec N.eq_dec a b); split; congruence.
Qed.

Lemma trimStart_nil (s : jsstring) :
  trimStart s = [] <-> forallb isWhiteSpace s = true.
Proof.
  induction s as [|c s IH]; cbn [trimStart forallb].
  - tauto.
  - destruct (isWhiteSpace c); cbn [andb].
    + exact IH.
    + split; discriminate.
Qed.

Lemma forallb_trimStart (s : jsstring) :
  forallb isWhiteSpace s = true -> forallb isWhiteSpace (trimStart s) = true.
Proof.
  intros H. apply trimStart_nil in H. now rewrite H.
Qed.

Lemma trimStart_suffix (s : jsstring) : exists p,
  s = p ++ trimStart s /\ forallb isWhiteSpace p = true.
Proof.
  induction s as [|c s [p [E W]]]; cbn [trimStart].
  - now exists [].
  - destruct (isWhiteSpace c) eqn:Hc.
    + exists (c :: p). cbn [forallb app]. rewrite Hc, W. split; [congruence | reflexivity].
    + now exists [].
Qed.

(** [trim] leaves nothing exactly when every code unit is white space. *)
Lemma trim_nil (s : jsstring) :
  trim s = [] <-> forallb isWhiteSpace s = true.
Proof.
  unfold trim, trimEnd. split.
  - intros H.
    assert (Hr : trimStart (rev (trimStart s)) = []).
    { rewrite <- (rev_involutive (trimStart _)). now rewrite H. }
    apply trimStart_nil in Hr.
    destruct (trimStart_suffix s) as [p [E W]].
    rewrite E, forallb_app, W. cbn [andb].
    rewrite forallb_forall in *. intros x Hx. apply Hr. now apply in_rev in Hx.
  - intros H. apply trimStart_nil in H. now rewrite H.
Qed.

Lemma or_else_nonempty (a b : jsstring) : b <> [] -> or_else a b <> [].
Proof. destruct a; cbn; [trivial | discriminate]. Qed.

Lemma or_else_nil (a : jsstring) : or_else a [] = a.
Proof. now destruct a. Qed.

End JsFacts.

(** ** The route's properties *)
Module RouteFacts.
Import Js JsFacts Route.

Section Run.

Variable JSON_parse : jsstring -> Exception + Value.
Variable toBase64 : list N -> jsstring.
Variable audio_transcriptions_create : File -> Exception + jsstring.
Variable chat_completions_create : list Value -> Exception + ChatCompletion.
Variable audio_speech_create : Voice -> jsstring -> Exception + list N.

Abbreviation POST :=
  (Route.POST JSON_parse toBase64 audio_transcriptions_create
     chat_completions_create audio_speech_create).
Abbreviation handle :=
  (Route.handle JSON_parse toBase64 audio_transcriptions_create
     chat_completions_create audio_speech_create).
Abbreviation audioOf := (Route.audioOf toBase64).
Abbreviation historyParses := (Route.historyParses JSON_parse).
Abbreviation Outcome :=
  (Route.Outcome JSON_parse toBase64 audio_transcriptions_create
     chat_completions_create audio_speech_create).

Lemma couldNotGenerate_nonempty : couldNotGenerate <> [].
Proof. discriminate. Qed.

Lemma apology_nonempty : apology <> [].
Proof. discriminate. Qed.

Lemma failureSentinel_nonempty : failureSentinel <> [].
Proof. discriminate. Qed.

Lemma clarifications_differ : couldNotTranscribe <> didNotCatch.
Proof. intros H. apply eqb_eq in H. vm_compute in H. discriminate. Qed.

Lemma clarificationFor_nonempty (t : jsstring) : clarificationFor t <> [].
Proof. unfold clarificationFor. destruct (eqb t failureSentinel); discriminate. Qed.

Lemma replyTextOf_nonempty (r : Exception + ChatCompletion) : replyTextOf r <> [].
Proof.
  destruct r as [e|c]; cbn [replyTextOf].
  - exact apology_nonempty.
  - destruct (eqb (firstContent c) []) eqn:E.
    + exact couldNotGenerate_nonempty.
    + now apply eqb_neq.
Qed.

Lemma clarification_run (userTranscript : jsstring) :
  let errorMessage := clarificationFor userTranscript in
  let tts := audio_speech_create alloy errorMessage in
  clarification toBase64 audio_speech_create userTranscript
  = ([Speech alloy errorMessage tts],
     inr (json (Turn userTranscript errorMessage (audioOf tts)) 200)).
Proof.
  cbv zeta. unfold clarification, clarificationFor, speech, audioOf.
  rewrite or_else_nil.
  destruct (audio_speech_create alloy _) as [e|bytes]; reflexivity.
Qed.

Lemma completion_run (messages : list Value) :
  let llm := chat_completions_create messages in
  completion chat_completions_create messages
  = ([ChatComplete messages llm], inr (replyTextOf llm)).
Proof.
  cbv zeta. unfold completion, chat, replyTextOf.
  destruct (chat_completions_create messages) as [e|c]; reflexivity.
Qed.

Lemma synthesis_run (llmTextResponse : jsstring) :
  llmTextResponse <> [] ->
  let tts := audio_speech_create nova llmTextResponse in
  synthesis toBase64 audio_speech_create llmTextResponse
  = ([Speech nova llmTextResponse tts], inr (audioOf tts)).
Proof.
  intros H. cbv zeta. unfold synthesis, speech, audioOf.
  apply eqb_neq in H. rewrite H. cbn [negb].
  destruct (audio_speech_create nova llmTextResponse) as [e|bytes]; reflexivity.
Qed.

Lemma parseHistory_cases (historyString : option FormDataEntryValue) :
  (exists history, parseHistory JSON_parse historyString = ret history)
  \/ (exists entry e, historyString = Some entry /\ entryTruthy (Some entry) = true
        /\ JSON_parse (entryToString entry) = inl e
        /\ parseHistory JSON_parse historyString = throw e).
Proof.
  destruct historyString as [entry|]; [|left; now exists (Arr [])].
  unfold parseHistory. destruct (entryTruthy (Some entry)) eqn:T.
  - unfold await. destruct (JSON_parse (entryToString entry)) as [e|v] eqn:P.
    + right. exists entry, e. auto.
    + left. now exists v.
  - left. now exists (Arr []).
Qed.

Lemma spread_cases (history : Value) :
  (exists previous, spread history = ret previous)
  \/ (exists e, spread history = throw e).
Proof.
  destruct history; cbn [spread]; eauto.
Qed.

(** Every request takes exactly one of the paths of [Outcome]. *)
Lemma POST_outcome (request : NextRequest) :
  Outcome request (fst (POST request)) (snd (POST request)).
Proof.
  unfold Route.POST, Route.handle.
  destruct (formData request) as [e|data] eqn:F; cbn [await bind try_return fst snd].
  { now apply NoFormData. }
  destruct (parseHistory_cases (get_history data))
    as [[history H]|[entry [e [Hh [Ht [Hp H]]]]]]; rewrite H; cbn [ret throw bind].
  2:{ cbn. eapply BadHistory; eauto. }
  destruct (entryTruthy (get_audio data)) eqn:A; cbn [negb].
  2:{ cbn. eapply NoAudio; eauto. }
  destruct (get_audio data) as [[file|s]|] eqn:G; try discriminate.
  2:{ cbn. eapply NotAFile; eauto. cbn in A. destruct (eqb s []) eqn:E; [discriminate|].
      now apply eqb_neq. }
  unfold transcribe.
  assert (T : try_catch ([Transcribe file (audio_transcriptions_create file)],
                         audio_transcriptions_create file)
                        (fun _ => ret failureSentinel)
              = ([Transcribe file (audio_transcriptions_create file)],
                 inr (transcriptOf (audio_transcriptions_create file)))).
  { destruct (audio_transcriptions_create file); reflexivity. }
  cbv zeta. rewrite T. cbn [bind].
  destruct (emptyOrFailed (transcriptOf (audio_transcriptions_create file))) eqn:E.
  - rewrite clarification_run. cbn. eapply Clarified; eauto.
  - unfold reply.
    destruct (spread_cases history) as [[previous S]|[e S]]; rewrite S; cbn [ret throw bind].
    + rewrite completion_run. cbn [bind].
      rewrite (synthesis_run (replyTextOf_nonempty _)). cbn.
      eapply Replied; eauto.
    + cbn. eapply NotIterable; eauto.
Qed.

(** Case analysis on the path a request takes. *)
Ltac paths request :=
  let O := fresh "O" in
  let trace := fresh "trace" in
  let response := fresh "response" in
  pose proof (POST_outcome request) as O;
  remember (fst (POST request)) as trace;
  remember (snd (POST request)) as response;
  destruct O.

(** The condition of line 59 holds exactly for the transcripts that are
    empty, made of white space only, or the failure sentinel. *)
Lemma emptyOrFailed_true (userTranscript : jsstring) :
  emptyOrFailed userTranscript = true <->
  userTranscript = [] \/ forallb isWhiteSpace userTranscript = true
  \/ userTranscript = failureSentinel.
Proof.
  unfold emptyOrFailed. rewrite !orb_true_iff, !eqb_eq, N.ltb_lt.
  rewrite <- trim_nil.
  assert (L : (N.of_nat (List.length (trim userTranscript)) < 1)%N
              <-> trim userTranscript = []).
  { destruct (trim userTranscript); cbn [List.length]; split; intros; try easy; lia. }
  rewrite L. tauto.
Qed.

Lemma emptyOrFailed_sentinel : emptyOrFailed failureSentinel = true.
Proof. apply emptyOrFailed_true. auto. Qed.

Lemma clarificationFor_sentinel : clarificationFor failureSentinel = couldNotTranscribe.
Proof. reflexivity. Qed.

Lemma historyParses_run (data : FormData) :
  historyParses data ->
  exists history, parseHistory JSON_parse (get_history data) = ret history.
Proof.
  unfold historyParses, parseHistory.
  destruct (get_history data) as [entry|]; [|now exists (Arr [])].
  intros [T|[history P]].
  - rewrite T. now exists (Arr []).
  - destruct (entryTruthy (Some entry)); [|now exists (Arr [])].
    exists history. unfold await, ret. now rewrite P.
Qed.

(** C1. Whenever the response carries audio ([audioBase64] is not [null]),
    a speech call on exactly the returned [llmTextResponse] succeeded and the
    audio is the base64 of its bytes; and no speech call of the request was
    made on any other text, be the text the reply, a clarification or the
    apology. *)
Theorem POST_audio_is_speech_of_returned_text
    (request : NextRequest) (userTranscript llmTextResponse audioBase64 : jsstring) :
  body (snd (POST request)) = Turn userTranscript llmTextResponse (Some audioBase64) ->
  (exists voice bytes,
      In (Speech voice llmTextResponse (inr bytes)) (fst (POST request))
      /\ audioBase64 = toBase64 bytes)
  /\ (forall voice input result,
      In (Speech voice input result) (fst (POST request)) -> input = llmTextResponse).
Proof.
  paths request; cbn [body json failure]; intros B; try discriminate.
  - injection B as -> -> A. split.
    + unfold audioOf in A. destruct tts as [e|bytes] eqn:T; [discriminate|].
      injection A as <-. exists alloy, bytes. cbn. auto.
    + intros voice input result [Hin|[Hin|[]]]; congruence.
  - injection B as -> -> A. split.
    + unfold audioOf in A. destruct tts as [e|bytes] eqn:T; [discriminate|].
      injection A as <-. exists nova, bytes. cbn. auto.
    + intros voice input result [Hin|[Hin|[Hin|[]]]]; congruence.
Qed.

(** C2. When the transcript of a request (what the transcription call
    returned, or the sentinel if it threw) is empty, white space only or the
    failure sentinel, the chat-completion capability is not called, and the
    response has status 200 and carries as [llmTextResponse] the
    clarification message: one message for the sentinel, a different one
    otherwise; its audio is there or [null] as the speech call went. *)
Theorem POST_blank_transcript_is_clarified
    (request : NextRequest) (file : File) (stt : Exception + jsstring) :
  In (Transcribe file stt) (fst (POST request)) ->
  transcriptOf stt = [] \/ forallb isWhiteSpace (transcriptOf stt) = true
    \/ transcriptOf stt = failureSentinel ->
  let userTranscript := transcriptOf stt in
  let errorMessage :=
    if eqb userTranscript failureSentinel then couldNotTranscribe else didNotCatch in
  (forall messages llm, ~ In (ChatComplete messages llm) (fst (POST request)))
  /\ snd (POST request)
     = json (Turn userTranscript errorMessage
                  (audioOf (audio_speech_create alloy errorMessage))) 200
  /\ couldNotTranscribe <> didNotCatch.
Proof.
  intros T Blank. apply emptyOrFailed_true in Blank. cbv zeta.
  revert T. paths request; cbn [In]; intros T; try tauto.
  - (* the clarification path *)
    destruct T as [T|[T|[]]]; [|discriminate].
    injection T as Ef Es. subst file stt. split; [|split].
    + intros messages llm [Hin|[Hin|[]]]; discriminate.
    + reflexivity.
    + exact clarifications_differ.
  - (* the history is not iterable: the transcript was not blank *)
    destruct T as [T|[]]. injection T as Ef Es. subst file stt. congruence.
  - (* the normal branch: the transcript was not blank *)
    destruct T as [T|[T|[T|[]]]]; try discriminate.
    injection T as Ef Es. subst file stt. unfold userTranscript in *. congruence.
Qed.

(** C3. When the chat-completion call of a request throws, the response
    still has status 200, its [llmTextResponse] is the fixed apology, and the
    handler went on to the synthesis stage: the speech capability was called
    on the apology, and the response's audio is what that call gave. *)
Theorem POST_chat_failure_is_apologised
    (request : NextRequest) (messages : list Value) (llmError : Exception) :
  In (ChatComplete messages (inl llmError)) (fst (POST request)) ->
  status (snd (POST request)) = 200%N
  /\ (exists userTranscript,
        body (snd (POST request))
        = Turn userTranscript apology (audioOf (audio_speech_create nova apology)))
  /\ In (Speech nova apology (audio_speech_create nova apology)) (fst (POST request)).
Proof.
  paths request; cbn [In]; intros T; try tauto.
  - destruct T as [T|[T|[]]]; discriminate.
  - destruct T as [T|[]]; discriminate.
  - destruct T as [T|[T|[T|[]]]]; try discriminate.
    injection T as Em El.
    assert (R : llmTextResponse = apology).
    { unfold llmTextResponse. now rewrite El. }
    unfold tts. rewrite R. cbn [status body json]. split; [reflexivity|]. split.
    + now exists userTranscript.
    + cbn. auto.
Qed.

(** C9. When the transcription call of a request throws, the response has
    status 200, its [userTranscript] is the failure sentinel, which is not
    the empty string, and its [llmTextResponse] is the clarification message
    of the could-not-transcribe case. *)
Theorem POST_transcription_failure_is_clarified
    (request : NextRequest) (file : File) (sttError : Exception) :
  In (Transcribe file (inl sttError)) (fst (POST request)) ->
  status (snd (POST request)) = 200%N
  /\ (exists audioBase64,
        body (snd (POST request))
        = Turn failureSentinel couldNotTranscribe audioBase64)
  /\ failureSentinel <> []
  /\ couldNotTranscribe <> didNotCatch.
Proof.
  paths request; cbn [In]; intros T; try tauto.
  - destruct T as [T|[T|[]]]; [|discriminate].
    injection T as Ef Es.
    assert (U : userTranscript = failureSentinel).
    { unfold userTranscript. now rewrite Es. }
    unfold tts, errorMessage. rewrite U, clarificationFor_sentinel.
    cbn [status body json]. split; [reflexivity|]. split; [eauto|]. split.
    + exact failureSentinel_nonempty.
    + exact clarifications_differ.
  - destruct T as [T|[]]. injection T as Ef Es.
    rewrite Es in *. cbn [transcriptOf] in *.
    pose proof emptyOrFailed_sentinel. congruence.
  - destruct T as [T|[T|[T|[]]]]; try discriminate.
    injection T as Ef Es. unfold userTranscript in *.
    rewrite Es in *. cbn [transcriptOf] in *.
    pose proof emptyOrFailed_sentinel. congruence.
Qed.

(** C10. Every response with status 200 has the three-field body, and its
    [llmTextResponse] is not the empty string. *)
Theorem POST_success_has_reply_text (request : NextRequest) :
  status (snd (POST request)) = 200%N ->
  exists userTranscript llmTextResponse audioBase64,
    body (snd (POST request)) = Turn userTranscript llmTextResponse audioBase64
    /\ llmTextResponse <> [].
Proof.
  paths request; cbn [status body json failure]; intros S; try discriminate.
  - exists userTranscript, errorMessage, (audioOf tts). split; [reflexivity|].
    apply clarificationFor_nonempty.
  - exists userTranscript, llmTextResponse, (audioOf tts). split; [reflexivity|].
    apply replyTextOf_nonempty.
Qed.

(** A history that line 24 turns into a value is absent, empty or parses. *)
Lemma run_historyParses (data : FormData) (history : Value) :
  parseHistory JSON_parse (get_history data) = ret history -> historyParses data.
Proof.
  unfold historyParses, parseHistory.
  destruct (get_history data) as [entry|]; [|trivial].
  destruct (entryTruthy (Some entry)); [|now left].
  unfold await, ret. destruct (JSON_parse (entryToString entry)) as [e|parsed] eqn:P.
  - discriminate.
  - intros _. right. now exists parsed.
Qed.

(** C4, as the code has it. A request whose form data can be read and that
    carries no audio file (the audio field is absent, is an empty text field,
    or is a text field with some text in it) calls none of the three
    capabilities. It is answered with status 400 and the body
    [{ error: 'No audio file provided' }] when the audio field is absent or
    empty and the history field is absent, empty or parses; in every other
    case (a history that does not parse, which line 24 meets before the audio
    is looked at, or some text in the audio field, which passes the test of
    line 27) it is answered with status 500 and the body
    [{ error: 'Failed to process audio chat', details }]. *)
Theorem POST_no_audio_is_bad_request (request : NextRequest) (data : FormData) :
  formData request = inr data ->
  (forall file, get_audio data <> Some (EntryFile file)) ->
  fst (POST request) = []
  /\ (historyParses data -> entryTruthy (get_audio data) = false ->
      snd (POST request) = json (ClientError (lit "No audio file provided")) 400)
  /\ (~ (historyParses data /\ entryTruthy (get_audio data) = false) ->
      exists details,
        snd (POST request)
        = json (ServerError (lit "Failed to process audio chat") details) 500).
Proof.
  intros F NoFile.
  paths request; try congruence;
    try (assert (data0 = data) by congruence; subst data0);
    try (exfalso; eapply NoFile; eassumption).
  - (* the history does not parse *)
    split; [reflexivity|]. split.
    + intros P _. apply historyParses_run in P as [history P].
      unfold parseHistory in P.
      repeat match goal with
             | E : get_history data = Some _ |- _ => rewrite E in P; clear E
             | E : entryTruthy (Some _) = true |- _ => rewrite E in P; clear E
             end.
      unfold await, ret in P.
      match goal with E : JSON_parse _ = inl _ |- _ => rewrite E in P end.
      discriminate P.
    + intros _. unfold failure. eexists. reflexivity.
  - (* no audio field, or an empty one *)
    split; [reflexivity|]. split; [reflexivity|].
    intros Not. exfalso. apply Not. split; [|assumption].
    eapply run_historyParses. eassumption.
  - (* text in the audio field *)
    split; [reflexivity|]. split.
    + intros _ A.
      match goal with
      | E : get_audio data = Some (EntryString _), N : _ <> [] |- _ =>
          rewrite E in A; cbn in A; apply eqb_neq in N; rewrite N in A
      end.
      discriminate A.
    + intros _. unfold failure. eexists. reflexivity.
Qed.

(** C8, as the code has it. A request whose form data can be read and whose
    history field is present, is not the empty string and does not parse as
    JSON is answered, without any capability being called, with status 500
    and the body [{ error, details }]: [error] is a fixed string, and
    [details] is the message of the parse exception (a fixed string when that
    message is empty); the exception's name and stack are not in it. *)
Theorem POST_unparsable_history_is_server_error
    (request : NextRequest) (data : FormData) (entry : FormDataEntryValue)
    (parseError : Exception) :
  formData request = inr data ->
  get_history data = Some entry ->
  entryTruthy (Some entry) = true ->
  JSON_parse (entryToString entry) = inl parseError ->
  POST request
  = ([], json (ServerError (lit "Failed to process audio chat")
                 (or_else (message parseError) (lit "Unknown server error"))) 500).
Proof.
  intros F H T P.
  unfold Route.POST, failure, Route.handle, parseHistory.
  rewrite F. cbn [await bind]. rewrite H, T. unfold await. rewrite P. reflexivity.
Qed.

End Run.

(** *** Concrete runs *)

(** A recording of a question, answered and spoken: the audio returned is
    the base64 of the speech for the returned text. *)
Lemma POST_audio_is_speech_of_returned_text_witness :
  body (snd (Fixture.serve (Fixture.hears "What's the weather?")
                   (Fixture.answers "I don't have weather access.")
                   (Fixture.upload Fixture.emptyHistory)))
  = Turn (lit "What's the weather?") (lit "I don't have weather access.")
         (Some (lit "SUQz"))
  /\ exists voice bytes,
       In (Speech voice (lit "I don't have weather access.") (inr bytes))
          (fst (Fixture.serve (Fixture.hears "What's the weather?")
                      (Fixture.answers "I don't have weather access.")
                      (Fixture.upload Fixture.emptyHistory)))
       /\ lit "SUQz" = Fixture.toBase64 bytes.
Proof.
  split; [reflexivity|].
  apply (@POST_audio_is_speech_of_returned_text
           Fixture.JSON_parse Fixture.toBase64
           (Fixture.hears "What's the weather?")
           (Fixture.answers "I don't have weather access.") Fixture.speaks
           (Fixture.upload Fixture.emptyHistory) (lit "What's the weather?")).
  reflexivity.
Defined.

(** A recording in which only white space is heard. *)
Lemma POST_blank_transcript_is_clarified_witness :
  (forall messages llm,
      ~ In (ChatComplete messages llm)
           (fst (Fixture.serve (Fixture.hears "  ") (Fixture.answers "Hello.")
                       (Fixture.upload Fixture.emptyHistory))))
  /\ snd (Fixture.serve (Fixture.hears "  ") (Fixture.answers "Hello.")
                (Fixture.upload Fixture.emptyHistory))
     = json (Turn (lit "  ") didNotCatch (Some (lit "SUQz"))) 200.
Proof.
  pose proof (@POST_blank_transcript_is_clarified
                Fixture.JSON_parse Fixture.toBase64
                (Fixture.hears "  ") (Fixture.answers "Hello.") Fixture.speaks
                (Fixture.upload Fixture.emptyHistory) Fixture.recording (inr (lit "  "))) as W.
  destruct W as [NoChat [Reply _]].
  - left. reflexivity.
  - right. left. reflexivity.
  - split; [exact NoChat | exact Reply].
Defined.

(** A recording that is understood while the chat model is down. *)
Lemma POST_chat_failure_is_apologised_witness :
  status (snd (Fixture.serve (Fixture.hears "Hi") Fixture.mute (Fixture.upload Fixture.emptyHistory)))
  = 200%N
  /\ body (snd (Fixture.serve (Fixture.hears "Hi") Fixture.mute (Fixture.upload Fixture.emptyHistory)))
     = Turn (lit "Hi") apology (Some (lit "SUQz"))
  /\ In (Speech nova apology (inr [73; 68; 51]%N))
        (fst (Fixture.serve (Fixture.hears "Hi") Fixture.mute (Fixture.upload Fixture.emptyHistory))).
Proof.
  pose proof (@POST_chat_failure_is_apologised
                Fixture.JSON_parse Fixture.toBase64
                (Fixture.hears "Hi") Fixture.mute Fixture.speaks
                (Fixture.upload Fixture.emptyHistory)
                [ApiChatMessage "system" systemPrompt; ApiChatMessage "user" (lit "Hi")]
                (mkException (lit "RateLimitError") (lit "429 Too Many Requests") []))
    as W.
  destruct W as [S [_ Called]].
  - right. left. reflexivity.
  - split; [exact S|]. split; [reflexivity | exact Called].
Defined.

(** A recording sent while the transcription service is down. *)
Lemma POST_transcription_failure_is_clarified_witness :
  status (snd (Fixture.serve Fixture.deaf (Fixture.answers "Hello.") (Fixture.upload Fixture.emptyHistory)))
  = 200%N
  /\ body (snd (Fixture.serve Fixture.deaf (Fixture.answers "Hello.") (Fixture.upload Fixture.emptyHistory)))
     = Turn failureSentinel couldNotTranscribe (Some (lit "SUQz")).
Proof.
  pose proof (@POST_transcription_failure_is_clarified
                Fixture.JSON_parse Fixture.toBase64
                Fixture.deaf (Fixture.answers "Hello.") Fixture.speaks
                (Fixture.upload Fixture.emptyHistory) Fixture.recording
                (mkException (lit "APIConnectionError") (lit "Connection error.") []))
    as W.
  destruct W as [S _].
  - left. reflexivity.
  - split; [exact S | reflexivity].
Defined.

(** A chat model that answers with white space only. *)
Lemma POST_success_has_reply_text_witness :
  exists userTranscript llmTextResponse audioBase64,
    body (snd (Fixture.serve (Fixture.hears "Hi") (Fixture.answers "   ")
                     (Fixture.upload Fixture.emptyHistory)))
    = Turn userTranscript llmTextResponse audioBase64
    /\ llmTextResponse <> [].
Proof.
  apply (@POST_success_has_reply_text
           Fixture.JSON_parse Fixture.toBase64
           (Fixture.hears "Hi") (Fixture.answers "   ") Fixture.speaks
           (Fixture.upload Fixture.emptyHistory)).
  reflexivity.
Defined.

(** A form with a history and no audio part. *)
Lemma POST_no_audio_is_bad_request_witness :
  Fixture.serve (Fixture.hears "Hi") (Fixture.answers "Hello.") (Fixture.noAudio "[]")
  = ([], json (ClientError (lit "No audio file provided")) 400).
Proof.
  assert (NoFile : forall file : File, None <> Some (EntryFile file))
    by (intros file; discriminate).
  pose proof (@POST_no_audio_is_bad_request
                Fixture.JSON_parse Fixture.toBase64
                (Fixture.hears "Hi") (Fixture.answers "Hello.") Fixture.speaks
                (Fixture.noAudio "[]")
                {| get_audio := None;
                   get_history := Some (EntryString (lit "[]")) |}
                eq_refl NoFile) as [NoCall [Bad _]].
  apply injective_projections; [exact NoCall|].
  apply Bad; [|reflexivity]. right. exists (Arr []). reflexivity.
Defined.

(** C4 as stated fails: a form with no audio part whose history field is a
    lone brace is answered with status 500, not 400, because the history is
    parsed (line 24) before the audio is looked at (line 27). *)
Lemma POST_no_audio_unparsable_history :
  formData (Fixture.noAudio "{")
  = inr {| get_audio := None; get_history := Some (EntryString (lit "{")) |}
  /\ status (snd (Fixture.serve (Fixture.hears "Hi") (Fixture.answers "Hello.")
                                (Fixture.noAudio "{")))
     = 500%N
  /\ exists details,
       body (snd (Fixture.serve (Fixture.hears "Hi") (Fixture.answers "Hello.")
                                (Fixture.noAudio "{")))
       = ServerError (lit "Failed to process audio chat") details.
Proof. split; [reflexivity|]. split; [reflexivity|]. eexists. reflexivity. Qed.

(** A recording sent with a history field that is a lone brace. *)
Lemma POST_unparsable_history_is_server_error_witness :
  Fixture.serve (Fixture.hears "Hi") (Fixture.answers "Hello.")
        (Fixture.upload (Some (EntryString (lit "{"))))
  = ([], json (ServerError (lit "Failed to process audio chat")
                           (lit "Unexpected token in JSON")) 500).
Proof.
  exact (@POST_unparsable_history_is_server_error
           Fixture.JSON_parse Fixture.toBase64
           (Fixture.hears "Hi") (Fixture.answers "Hello.") Fixture.speaks
           (Fixture.upload (Some (EntryString (lit "{"))))
           {| get_audio := Some (EntryFile Fixture.recording);
              get_history := Some (EntryString (lit "{")) |}
           (EntryString (lit "{"))
           (Fixture.SyntaxError "Unexpected token in JSON")
           eq_refl eq_refl eq_refl eq_refl).
Defined.

(** C8 as stated fails: the empty string is not valid JSON, yet a recording
    sent with an empty history field is served with status 200, the guard
    of line 24 taking it for an empty history. *)
Lemma POST_empty_history_is_served :
  Fixture.JSON_parse [] = inl (Fixture.SyntaxError "Unexpected end of JSON input")
  /\ snd (Fixture.serve (Fixture.hears "Hi") (Fixture.answers "Hello.")
                (Fixture.upload (Some (EntryString []))))
     = json (Turn (lit "Hi") (lit "Hello.") (Some (lit "SUQz"))) 200.
Proof. split; reflexivity. Qed.

End RouteFacts.

(** ** The client's properties *)
Module PageFacts.
Import Js JsFacts Page.

Lemma extends_same (P : Effect -> Prop) (c c' : Component) :
  effects c' = effects c -> extends P c c'.
Proof. intros E. exists []. rewrite app_nil_r. auto. Qed.

Lemma extends_trans (P : Effect -> Prop) (c1 c2 c3 : Component) :
  extends P c1 c2 -> extends P c2 c3 -> extends P c1 c3.
Proof.
  intros [a [E1 F1]] [b [E2 F2]]. exists (a ++ b).
  rewrite E2, E1, app_assoc. split; [reflexivity|]. apply Forall_app; auto.
Qed.

Lemma extends_perform (P : Effect -> Prop) (e : Effect) (c : Component) :
  P e -> extends P c (perform e c).
Proof. intros H. exists [e]. split; [reflexivity|]. auto. Qed.

Lemma extends_performed (P : Effect -> Prop) (c c' : Component) :
  extends P c c' -> Forall P (performed c c').
Proof.
  intros [added [E F]]. unfold performed. rewrite E.
  rewrite skipn_app, skipn_all, Nat.sub_diag. exact F.
Qed.

Create HintDb page discriminated.
#[local] Hint Resolve extends_same extends_perform : page.

Lemma releaseStream_extends (P : Effect -> Prop) (c : Component) :
  (forall stream, P (StopTracks stream)) -> extends P c (releaseStream c).
Proof.
  intros H. unfold releaseStream. destruct (mediaStream c) as [stream|].
  - exists [StopTracks stream]. split; [reflexivity|]. auto.
  - auto with page.
Qed.

Lemma concat_nil_size (datas : list Blob) :
  List.concat (map blob_bytes datas) = [] ->
  Forall (fun data => size data = 0%N) datas.
Proof.
  induction datas as [|data datas IH]; cbn [map List.concat]; intros H.
  - constructor.
  - apply app_eq_nil in H as [H1 H2]. constructor; [|auto].
    unfold size. now rewrite H1.
Qed.

(** Data events that carry no bytes leave the chunks as they were. *)
Lemma ondataavailable_empty (datas : list Blob) (c : Component) :
  Forall (fun data => size data = 0%N) datas ->
  fold_left (fun c data => ondataavailable data c) datas c = c.
Proof.
  intros F. revert c. induction F as [|data datas Hd _ IH]; intros c; cbn [fold_left].
  - reflexivity.
  - unfold ondataavailable at 2. rewrite Hd. cbn. apply IH.
Qed.

Lemma slice_last_length {A} (n : nat) (l : list A) :
  List.length (slice_last n l) <= n.
Proof. unfold slice_last. rewrite length_skipn. lia. Qed.

Lemma slice_last_incl {A} (n : nat) (l : list A) (x : A) :
  In x (slice_last n l) -> In x l.
Proof.
  unfold slice_last. intros H.
  rewrite <- (firstn_skipn (List.length l - n) l). apply in_or_app. now right.
Qed.

Lemma historyForApi_length (conversation : list ConversationMessage) :
  List.length (historyForApi conversation) <= 8.
Proof.
  unfold historyForApi. rewrite length_map.
  etransitivity; [apply filter_length_le | apply slice_last_length].
Qed.

(** The turns the history is made from. *)
Lemma historyForApi_turns (conversation : list ConversationMessage) :
  Forall (fun turn => In turn conversation
                      /\ (role turn = You \/ role turn = Assistant))
         (filter isUserOrAssistant (slice_last 8 conversation)).
Proof.
  apply Forall_forall. intros turn H. apply filter_In in H as [H K]. split.
  - eapply slice_last_incl; eauto.
  - unfold isUserOrAssistant in K. destruct (role turn); auto; discriminate.
Qed.

Section Submission.

Variable fetch : FormData -> Exception + Response.
Variable play : jsstring -> bool.
Variable String_of : Value -> jsstring.

Abbreviation onstop := (Page.onstop fetch String_of).
Abbreviation stopped := (Page.stopped fetch play String_of).

Lemma received_extends (P : Effect -> Prop) (response : Response) (c : Component) :
  (forall src, P (Play src)) ->
  extends P c (fst (received String_of response c)).
Proof.
  intros H. unfold received.
  destruct (resp_json response) as [e|data]; [auto with page|].
  destruct (get data "userTranscript") as [e|userTranscript]; [auto with page|].
  destruct (get data "llmTextResponse") as [e|llmTextResponse]; [auto with page|].
  destruct (get data "audioBase64") as [e|audioBase64]; [auto with page|].
  destruct (as_string userTranscript); [|auto with page].
  destruct (as_string llmTextResponse) as [text|]; [|auto with page].
  destruct (truthy_opt audioBase64); cbn [audioPlayer appendConversation setStatus].
  - destruct (audioPlayer c).
    + exists [Play (lit "data:audio/mp3;base64," ++ toString String_of audioBase64)].
      split; [reflexivity|]. auto.
    + destruct (negb (eqb text [])); auto with page.
  - destruct (negb (eqb text [])); auto with page.
Qed.

Lemma tryCatch_extends (P : Effect -> Prop) (formData : FormData) (c : Component) :
  P (Fetch formData) -> (forall src, P (Play src)) ->
  (forall stream, P (StopTracks stream)) ->
  extends P c (fst (tryCatch fetch String_of formData c)).
Proof.
  intros Hf Hp Hs.
  assert (T : forall c' r, tryBlock fetch String_of formData c = (c', r) ->
                           extends P c c').
  { unfold tryBlock. intros c' r.
    destruct (fetch formData) as [e|response].
    - intros [= <- _]. auto with page.
    - destruct (negb (ok response)).
      + intros [= <- _]. auto with page.
      + intros E. apply extends_trans with (perform (Fetch formData) c);
          [auto with page|].
        pose proof (@received_extends P response (perform (Fetch formData) c) Hp) as R.
        now rewrite E in R. }
  unfold tryCatch.
  destruct (tryBlock fetch String_of formData c) as [c' [error|playing]] eqn:E;
    cbn [fst].
  - apply extends_trans with c'; [eauto|]. unfold catchBlock.
    apply extends_trans with
      (appendConversation
         [{| role := Error; text := lit "Processing failed: " ++ message error;
             audio := None |}]
         (setStatus (lit "Error: " ++ message error) c'));
      [auto with page | now apply releaseStream_extends].
  - eauto.
Qed.

Lemma finallyBlock_effects (env : Render) (c : Component) :
  effects (finallyBlock env c) = effects c.
Proof.
  unfold finallyBlock.
  destruct (negb (startsWith (r_status env) (lit "Error")) && _ && _); reflexivity.
Qed.

(** The handler adds only effects that satisfy [P] when the one request it
    can build does. *)
Lemma onstop_extends (P : Effect -> Prop) (r : MediaRecorder) (c : Component) :
  (forall body,
      fd_history body = historyForApi (r_conversation (closure r)) -> P (Fetch body)) ->
  (forall src, P (Play src)) ->
  (forall stream, P (StopTracks stream)) ->
  extends P c (fst (onstop r c)).
Proof.
  intros Hf Hp Hs. unfold Page.onstop.
  set (c1 := releaseStream _).
  assert (R : extends P c c1).
  { apply extends_trans with
      (setStatus (lit "Recording stopped. Processing audio...") (setIsLoading true c));
      [auto with page | now apply releaseStream_extends]. }
  destruct (audioChunks c1) as [|chunk chunks]; cbn [fst].
  { apply extends_trans with c1; auto with page. }
  destruct (fileExtension (mimeType r)) as [ext|]; cbn [fst]; [|exact R].
  match goal with
  | |- context [tryCatch fetch String_of ?fd c1] =>
      pose proof (@tryCatch_extends P fd c1 (Hf fd eq_refl) Hp Hs) as T;
      destruct (tryCatch fetch String_of fd c1) as [c2 playing]
  end.
  cbn [fst] in *. apply extends_trans with c1; [exact R|].
  apply extends_trans with c2; [exact T|].
  apply extends_same, finallyBlock_effects.
Qed.

Lemma settled_effects (playing : option jsstring) (c : Component) :
  effects (settled play playing c) = effects c.
Proof.
  unfold settled. destruct playing as [src|]; [|reflexivity].
  destruct (play src); reflexivity.
Qed.

Lemma stopped_extends (P : Effect -> Prop) (r : MediaRecorder) (c : Component) :
  (forall body,
      fd_history body = historyForApi (r_conversation (closure r)) -> P (Fetch body)) ->
  (forall src, P (Play src)) ->
  (forall stream, P (StopTracks stream)) ->
  extends P c (stopped r c).
Proof.
  intros Hf Hp Hs. pose proof (@onstop_extends P r c Hf Hp Hs) as E.
  unfold Page.stopped. destruct (onstop r c) as [c' playing]. cbn [fst] in E.
  apply extends_trans with c'; [exact E|]. apply extends_same, settled_effects.
Qed.

(** C6. Every request that a stop event sends carries a history of at most
    8 entries, and each entry is made from a turn of the transcript whose
    role is You or Assistant: none is made from an Error turn. *)
Theorem submitted_history_is_trimmed
    (r : MediaRecorder) (c : Component) (body : FormData) :
  In (Fetch body) (performed c (stopped r c)) ->
  List.length (fd_history body) <= 8
  /\ exists turns,
       fd_history body = map toApi turns
       /\ Forall (fun turn => In turn (r_conversation (closure r))
                              /\ (role turn = You \/ role turn = Assistant)
                              /\ role turn <> Error) turns.
Proof.
  intros Sent.
  set (P := fun e => match e with
                     | Fetch b => fd_history b = historyForApi (r_conversation (closure r))
                     | _ => True
                     end).
  assert (E : extends P c (stopped r c)).
  { apply stopped_extends; intros; cbn; auto. }
  apply extends_performed in E. rewrite Forall_forall in E.
  specialize (E _ Sent). cbn in E. rewrite E. split.
  - apply historyForApi_length.
  - exists (filter isUserOrAssistant (slice_last 8 (r_conversation (closure r)))).
    split; [reflexivity|].
    eapply Forall_impl; [|apply historyForApi_turns].
    intros turn [I R]. repeat split; auto. destruct R as [R|R]; rewrite R; discriminate.
Qed.

(** C7. A recording that was started and ends with no byte captured sends
    no request and appends nothing to the transcript, so no Error turn: the
    stop event leaves the status at the no-audio message, and [isLoading]
    and [isRecording] false. *)
Theorem empty_recording_is_dropped
    (env : Render) (stream : MediaStream) (isTypeSupported : jsstring -> bool)
    (mimeType : jsstring) (datas : list Blob) (c : Component) :
  r_isRecording env = false ->
  find isTypeSupported supportedTypes = Some mimeType ->
  List.concat (map blob_bytes datas) = [] ->
  let started := startRecording env (inr stream) isTypeSupported None None c in
  let recorder := {| closure := env; mimeType := mimeType; rec_state := recording |} in
  let captured :=
    fold_left (fun c data => ondataavailable data c) datas (stopRecording started) in
  let final := stopped recorder captured in
  mediaRecorder started = Some recorder
  /\ Forall (fun e => is_fetch e = false) (performed c final)
  /\ conversation final = conversation c
  /\ status final = noAudioDetected
  /\ isLoading final = false
  /\ isRecording final = false.
Proof.
  intros Hr Hf Hz. cbv zeta. apply concat_nil_size in Hz.
  rewrite (ondataavailable_empty _ Hz).
  unfold startRecording. rewrite Hr, Hf.
  split; [reflexivity|]. split.
  - apply extends_performed.
    destruct (mediaStream c) as [held|] eqn:M.
    + exists [StopTracks held; StopTracks stream]. split; [|repeat constructor].
      cbn. now rewrite <- app_assoc.
    + exists [StopTracks stream]. split; [|repeat constructor]. reflexivity.
  - destruct (mediaStream c); repeat split; reflexivity.
Qed.

End Submission.

(** *** Concrete runs *)

Lemma submitted_history_is_trimmed_witness :
  List.length (fd_history Fixture.resent) <= 8
  /\ exists turns,
       fd_history Fixture.resent = map toApi turns
       /\ Forall (fun turn => In turn [Fixture.hi; Fixture.failed]
                              /\ (role turn = You \/ role turn = Assistant)
                              /\ role turn <> Error) turns.
Proof.
  apply (@submitted_history_is_trimmed
           Fixture.offline (fun _ => true) Fixture.String_of
           Fixture.webm (ondataavailable Fixture.chunk Fixture.afterFailure) Fixture.resent).
  vm_compute. left. reflexivity.
Defined.

(** A first recording in which the one data event carries no bytes. *)
Lemma empty_recording_is_dropped_witness :
  let started :=
    startRecording (render initial) (inr 1%N) (fun _ => true) None None initial in
  let final :=
    Page.stopped Fixture.offline (fun _ => true) Fixture.String_of
      {| closure := render initial; mimeType := lit "audio/webm;codecs=opus";
         rec_state := recording |}
      (ondataavailable Fixture.silence (stopRecording started)) in
  Forall (fun e => is_fetch e = false) (performed initial final)
  /\ conversation final = []
  /\ status final = noAudioDetected
  /\ isLoading final = false
  /\ isRecording final = false.
Proof.
  cbv zeta.
  apply (@empty_recording_is_dropped
           Fixture.offline (fun _ => true) Fixture.String_of
           (render initial) 1%N (fun _ => true) (lit "audio/webm;codecs=opus")
           [Fixture.silence] initial); reflexivity.
Defined.

(** What the [finally] block does on every path: the flags and the chunks
    are reset whatever the outcome. *)
Lemma finallyBlock_resets (env : Render) (c : Component) :
  isLoading (finallyBlock env c) = false
  /\ isRecording (finallyBlock env c) = false
  /\ audioChunks (finallyBlock env c) = []
  /\ conversation (finallyBlock env c) = conversation c.
Proof.
  unfold finallyBlock.
  destruct (negb (startsWith (r_status env) (lit "Error")) && _ && _);
    repeat split; reflexivity.
Qed.

(** Whether the [finally] block resets the status is decided by the status
    of the render the handler was created in, not by the status that the
    [try] and [catch] blocks have set. *)
Lemma finallyBlock_status (env : Render) (c : Component) :
  status (finallyBlock env c)
  = if negb (startsWith (r_status env) (lit "Error"))
       && negb (includes (r_status env) (lit "Replay"))
       && negb (includes (r_status env) (lit "Playing"))
    then readyPrompt
    else status c.
Proof.
  unfold finallyBlock.
  destruct (negb (startsWith (r_status env) (lit "Error")) && _ && _); reflexivity.
Qed.

(** Whenever a stop event gets as far as building a request, it ends with
    the two flags false and the chunks cleared, whatever the outcome. *)
Lemma stopped_resets (fetch : FormData -> Exception + Response)
    (play : jsstring -> bool) (String_of : Value -> jsstring)
    (r : MediaRecorder) (c : Component) :
  fileExtension (mimeType r) <> None ->
  isLoading (Page.stopped fetch play String_of r c) = false
  /\ isRecording (Page.stopped fetch play String_of r c) = false
  /\ audioChunks (Page.stopped fetch play String_of r c) = [].
Proof.
  intros X. unfold Page.stopped, Page.onstop.
  set (c1 := releaseStream _).
  destruct (audioChunks c1) as [|chunk chunks] eqn:A.
  - cbn. auto.
  - destruct (fileExtension (mimeType r)) as [ext|]; [|congruence].
    destruct (tryCatch _ _ _ _) as [c2 playing].
    destruct (finallyBlock_resets (closure r) c2) as [L [R [K _]]].
    unfold settled. destruct playing as [src|]; [destruct (play src)|]; cbn; auto.
Qed.

(** C5, at a first recording whose request fails. The recording is started
    from the first render, one chunk of four bytes is captured, and [fetch]
    rejects. The [catch] block sets the status to the error message and
    appends the Error turn; the [finally] block clears the chunks and the two
    flags, and then resets the status to the ready prompt all the same,
    because the [status] it tests (line 205) is the one of the render in
    which recording was started, here the initial prompt. *)
Theorem failed_submission_status_is_reset :
  let started :=
    startRecording (render initial) (inr 1%N) (fun _ => true) None None initial in
  let recorder :=
    {| closure := render initial; mimeType := lit "audio/webm;codecs=opus";
       rec_state := recording |} in
  let captured := ondataavailable Fixture.chunk (stopRecording started) in
  let before :=
    releaseStream
      (setStatus (lit "Recording stopped. Processing audio...")
         (setIsLoading true captured)) in
  let formData :=
    {| fd_audio := newBlob [Fixture.chunk] (lit "audio/webm;codecs=opus");
       fd_filename := lit "recording.webm";
       fd_history := [] |} in
  let caught := fst (tryCatch Fixture.offline Fixture.String_of formData before) in
  let final :=
    Page.stopped Fixture.offline (fun _ => true) Fixture.String_of recorder captured in
  mediaRecorder started = Some recorder
  /\ r_status (closure recorder) = lit "Click Start Recording"
  /\ Page.onstop Fixture.offline Fixture.String_of recorder captured
     = (finallyBlock (closure recorder) caught, None)
  /\ status caught = lit "Error: Failed to fetch"
  /\ conversation caught = [Fixture.failed]
  /\ status final = readyPrompt
  /\ conversation final = [Fixture.failed]
  /\ isLoading final = false
  /\ isRecording final = false
  /\ audioChunks final = [].
Proof. cbv zeta. repeat apply conj; vm_compute; reflexivity. Qed.

End PageFacts.

(** ** More about the route: the calls it makes and what it answers *)
Module RouteEdges.
Import Js JsFacts Route RouteFacts.

Section Run.

Variable JSON_parse : jsstring -> Exception + Value.
Variable toBase64 : list N -> jsstring.
Variable audio_transcriptions_create : File -> Exception + jsstring.
Variable chat_completions_create : list Value -> Exception + ChatCompletion.
Variable audio_speech_create : Voice -> jsstring -> Exception + list N.

Abbreviation POST :=
  (Route.POST JSON_parse toBase64 audio_transcriptions_create
     chat_completions_create audio_speech_create).
Abbreviation audioOf := (Route.audioOf toBase64).
Abbreviation historyParses := (Route.historyParses JSON_parse).

(** Case analysis on the path of a request, keeping the request's data. *)
Ltac route request :=
  let O := fresh "O" in
  let trace := fresh "trace" in
  let response := fresh "response" in
  pose proof (POST_outcome JSON_parse toBase64 audio_transcriptions_create
                chat_completions_create audio_speech_create request) as O;
  remember (fst (POST request)) as trace;
  remember (snd (POST request)) as response;
  destruct O.

(** Two readings of the same request agree. *)
Ltac same_data :=
  repeat match goal with
    | F : formData ?r = inr ?a, G : formData ?r = inr ?b |- _ =>
        assert (b = a) by congruence; subst b; clear G
    | F : formData ?r = inr _, G : formData ?r = inl _ |- _ => congruence
    | F : parseHistory _ ?h = ret ?a, G : parseHistory _ ?h = ret ?b |- _ =>
        assert (b = a) by (unfold ret in *; congruence); subst b; clear G
    | F : get_audio ?d = Some (EntryFile ?a), G : get_audio ?d = Some (EntryFile ?b) |- _ =>
        assert (b = a) by congruence; subst b; clear G
    end.

Lemma badHistory_does_not_parse (data : FormData) (entry : FormDataEntryValue)
    (e : Exception) (history : Value) :
  get_history data = Some entry -> entryTruthy (Some entry) = true ->
  JSON_parse (entryToString entry) = inl e ->
  parseHistory JSON_parse (get_history data) = ret history -> False.
Proof.
  intros H T P R. unfold parseHistory in R. rewrite H, T in R.
  unfold await, ret in R. rewrite P in R. discriminate.
Qed.

(** X1. A request calls each capability at most once and in pipeline order:
    its trace is empty, or the transcription alone, or the transcription and
    one speech call, or the transcription, one chat call and one speech
    call. Nothing is retried. *)
Theorem POST_calls_in_pipeline_order (request : NextRequest) :
  fst (POST request) = []
  \/ (exists file stt, fst (POST request) = [Transcribe file stt])
  \/ (exists file stt voice input tts,
        fst (POST request) = [Transcribe file stt; Speech voice input tts])
  \/ (exists file stt messages llm voice input tts,
        fst (POST request)
        = [Transcribe file stt; ChatComplete messages llm; Speech voice input tts]).
Proof.
  route request; auto.
  - right. right. left. eauto 6.
  - right. left. eauto.
  - right. right. right. eauto 10.
Qed.

(** X2. The messages given to the chat-completion capability are the fixed
    system instruction, then the elements of the parsed history field in
    their order, then one user message holding the transcript of the
    uploaded file; the answer recorded is the capability's answer on exactly
    these messages. *)
Theorem POST_chat_messages
    (request : NextRequest) (messages : list Value) (llm : Exception + ChatCompletion) :
  In (ChatComplete messages llm) (fst (POST request)) ->
  exists data file history previous,
    formData request = inr data
    /\ get_audio data = Some (EntryFile file)
    /\ parseHistory JSON_parse (get_history data) = ret history
    /\ spread history = ret previous
    /\ messages
       = ApiChatMessage "system" systemPrompt
           :: previous
           ++ [ApiChatMessage "user" (transcriptOf (audio_transcriptions_create file))]
    /\ llm = chat_completions_create messages.
Proof.
  route request; cbn [In]; intros T; try tauto.
  - destruct T as [T|[T|[]]]; discriminate.
  - destruct T as [T|[]]; discriminate.
  - destruct T as [T|[T|[T|[]]]]; try discriminate.
    injection T as Em El. subst messages llm.
    exists data, file, history, previous. auto 10.
Qed.

(** X3. The voice of a speech call tells its use: [alloy] speaks one of the
    two clarification messages, in a request that makes no chat call;
    [nova] speaks the reply text that the chat stage left, in a request that
    made a chat call. No other voice is used. *)
Theorem POST_speech_voice
    (request : NextRequest) (voice : Voice) (input : jsstring)
    (tts : Exception + list N) :
  In (Speech voice input tts) (fst (POST request)) ->
  (voice = alloy
   /\ (input = couldNotTranscribe \/ input = didNotCatch)
   /\ forall messages llm, ~ In (ChatComplete messages llm) (fst (POST request)))
  \/ (voice = nova
      /\ exists messages llm,
           In (ChatComplete messages llm) (fst (POST request))
           /\ input = replyTextOf llm).
Proof.
  route request; cbn [In]; intros T; try tauto.
  - destruct T as [T|[T|[]]]; [discriminate|]. injection T as Ev Ei Et. left.
    split; [auto|]. split.
    + rewrite <- Ei. unfold errorMessage, clarificationFor.
      destruct (eqb userTranscript failureSentinel); auto.
    + intros messages llm [Hin|[Hin|[]]]; discriminate.
  - destruct T as [T|[]]; discriminate.
  - destruct T as [T|[T|[T|[]]]]; try discriminate. injection T as Ev Ei Et. right.
    split; [auto|]. exists messages, llm. split; [cbn; auto | auto].
Qed.

(** X4. When the speech call of a request throws, the request is still
    answered with status 200: the body carries the text that was to be
    spoken and [audioBase64: null]. *)
Theorem POST_speech_failure_is_text_only
    (request : NextRequest) (voice : Voice) (input : jsstring) (ttsError : Exception) :
  In (Speech voice input (inl ttsError)) (fst (POST request)) ->
  status (snd (POST request)) = 200%N
  /\ exists userTranscript, body (snd (POST request)) = Turn userTranscript input None.
Proof.
  route request; cbn [In]; intros T; try tauto.
  - destruct T as [T|[T|[]]]; [discriminate|]. injection T as Ev Ei Et.
    rewrite Et. cbn. rewrite Ei. eauto.
  - destruct T as [T|[]]; discriminate.
  - destruct T as [T|[T|[T|[]]]]; try discriminate. injection T as Ev Ei Et.
    rewrite Et. cbn. rewrite Ei. eauto.
Qed.

(** X5. Every response has one of three shapes: status 200 with the
    three-field body; status 400 with [{ error: 'No audio file provided' }],
    no capability having been called; or status 500 with
    [{ error: 'Failed to process audio chat', details }] where [details] is
    not empty. *)
Theorem POST_response_shapes (request : NextRequest) :
  (status (snd (POST request)) = 200%N
   /\ exists userTranscript llmTextResponse audioBase64,
        body (snd (POST request)) = Turn userTranscript llmTextResponse audioBase64)
  \/ (status (snd (POST request)) = 400%N
      /\ body (snd (POST request)) = ClientError (lit "No audio file provided")
      /\ fst (POST request) = [])
  \/ (status (snd (POST request)) = 500%N
      /\ exists details,
           body (snd (POST request))
           = ServerError (lit "Failed to process audio chat") details
           /\ details <> []).
Proof.
  assert (F : forall e, status (failure e) = 500%N
                        /\ exists details,
                             body (failure e)
                             = ServerError (lit "Failed to process audio chat") details
                             /\ details <> []).
  { intros e. split; [reflexivity|]. eexists. split; [reflexivity|].
    apply or_else_nonempty. discriminate. }
  route request; auto.
  - left. cbn. eauto.
  - left. cbn. eauto.
Qed.

(** X6. When the chat call of a request returns, the reply text of the
    response is the content of the first choice with its surrounding white
    space removed; when there is no first choice, or it has no message, or
    the content is [null], or nothing is left of it, the reply text is the
    fixed could-not-generate sentence. The other choices are not read. *)
Theorem POST_reply_is_first_choice_trimmed
    (request : NextRequest) (messages : list Value) (chatCompletion : ChatCompletion) :
  In (ChatComplete messages (inr chatCompletion)) (fst (POST request)) ->
  exists userTranscript audioBase64,
    body (snd (POST request))
    = Turn userTranscript
        (match choices chatCompletion with
         | {| choice_message := Some {| content := Some text |} |} :: _ =>
             if eqb (trim text) [] then couldNotGenerate else trim text
         | _ => couldNotGenerate
         end)
        audioBase64.
Proof.
  route request; cbn [In]; intros T; try tauto.
  - destruct T as [T|[T|[]]]; discriminate.
  - destruct T as [T|[]]; discriminate.
  - destruct T as [T|[T|[T|[]]]]; try discriminate. injection T as Em El.
    exists userTranscript, (audioOf tts). cbn [body json]. f_equal.
    unfold llmTextResponse. rewrite El. cbn [replyTextOf]. unfold firstContent.
    destruct (choices chatCompletion) as [|[[[[text|]]|]] rest]; try reflexivity.
    now rewrite or_else_nil.
Qed.

(** X7. The history is only looked at in the normal branch. When it parses
    to a value that is neither an array nor a string, a request whose
    transcript is blank is still answered with status 200, while any other
    request is answered with status 500 after the transcription call: the
    chat and speech capabilities are not called. *)
Theorem POST_history_not_iterable
    (request : NextRequest) (data : FormData) (file : File) (history : Value) :
  formData request = inr data ->
  get_audio data = Some (EntryFile file) ->
  parseHistory JSON_parse (get_history data) = ret history ->
  (forall elems, history <> Arr elems) ->
  (forall s, history <> Str s) ->
  if emptyOrFailed (transcriptOf (audio_transcriptions_create file))
  then status (snd (POST request)) = 200%N
  else POST request
       = ([Transcribe file (audio_transcriptions_create file)],
          failure (TypeError "conversationHistory is not iterable")).
Proof.
  intros F A P NotArr NotStr.
  assert (S : spread history = throw (TypeError "conversationHistory is not iterable")).
  { destruct history; try reflexivity; [now destruct (NotStr s) | now destruct (NotArr elems)]. }
  rewrite (surjective_pairing (POST request)).
  route request; same_data; try congruence.
  - exfalso. eapply badHistory_does_not_parse; eauto.
  - match goal with H : entryTruthy _ = false |- _ => rewrite A in H; discriminate H end.
  - match goal with H : emptyOrFailed _ = true |- _ =>
      unfold userTranscript, stt in H; rewrite H end.
    reflexivity.
  - match goal with H : emptyOrFailed _ = false |- _ => unfold stt in H; rewrite H end.
    match goal with H : spread _ = throw _ |- _ => rewrite S in H; injection H as <- end.
    reflexivity.
  - match goal with H : spread _ = ret _ |- _ => rewrite S in H; discriminate H end.
Qed.

(** X8. A request whose audio field is a text field that is not empty
    passes the check of line 27, and is answered with status 500, not 400,
    without any capability being called: the value has no [arrayBuffer]
    method (line 36). *)
Theorem POST_audio_as_text_field
    (request : NextRequest) (data : FormData) (s : jsstring) :
  formData request = inr data ->
  get_audio data = Some (EntryString s) ->
  s <> [] ->
  fst (POST request) = [] /\ status (snd (POST request)) = 500%N.
Proof.
  intros F A N.
  route request; same_data; try congruence; try (split; reflexivity).
  match goal with H : entryTruthy _ = false |- _ => rewrite A in H; cbn in H end.
  apply eqb_neq in N. rewrite N in *. discriminate.
Qed.

(** X9. The transcript in a response with the three-field body is what the
    transcription of the uploaded file gave, as it is: the text it returned,
    not trimmed, or the sentinel when it threw. *)
Theorem POST_transcript_is_verbatim
    (request : NextRequest) (userTranscript llmTextResponse : jsstring)
    (audioBase64 : option jsstring) :
  body (snd (POST request)) = Turn userTranscript llmTextResponse audioBase64 ->
  exists data file,
    formData request = inr data
    /\ get_audio data = Some (EntryFile file)
    /\ In (Transcribe file (audio_transcriptions_create file)) (fst (POST request))
    /\ userTranscript = transcriptOf (audio_transcriptions_create file).
Proof.
  route request; cbn [body json failure]; intros B; try discriminate.
  - injection B as Eu Et Ea. exists data, file. cbn. auto.
  - injection B as Eu Et Ea. exists data, file. cbn. auto.
Qed.

End Run.

(** *** Concrete runs *)

Lemma POST_chat_messages_witness :
  exists data file history previous,
    formData (Fixture.upload Fixture.emptyHistory) = inr data
    /\ get_audio data = Some (EntryFile file)
    /\ parseHistory Fixture.JSON_parse (get_history data) = ret history
    /\ spread history = ret previous
    /\ [ApiChatMessage "system" systemPrompt; ApiChatMessage "user" (lit "Hi")]
       = ApiChatMessage "system" systemPrompt
           :: previous
           ++ [ApiChatMessage "user" (transcriptOf (Fixture.hears "Hi" file))]
    /\ Fixture.answers "Hello."
         [ApiChatMessage "system" systemPrompt; ApiChatMessage "user" (lit "Hi")]
       = Fixture.answers "Hello."
           [ApiChatMessage "system" systemPrompt; ApiChatMessage "user" (lit "Hi")].
Proof.
  apply (@POST_chat_messages
           Fixture.JSON_parse Fixture.toBase64
           (Fixture.hears "Hi") (Fixture.answers "Hello.") Fixture.speaks
           (Fixture.upload Fixture.emptyHistory)).
  right. left. reflexivity.
Defined.

(** The clarification of a silent recording is spoken by [alloy]. *)
Lemma POST_speech_voice_witness :
  (alloy = alloy
   /\ (didNotCatch = couldNotTranscribe \/ didNotCatch = didNotCatch)
   /\ forall messages llm,
        ~ In (ChatComplete messages llm)
             (fst (Fixture.serve (Fixture.hears "") (Fixture.answers "Hello.")
                                 (Fixture.upload Fixture.emptyHistory))))
  \/ (alloy = nova
      /\ exists messages llm,
           In (ChatComplete messages llm)
              (fst (Fixture.serve (Fixture.hears "") (Fixture.answers "Hello.")
                                  (Fixture.upload Fixture.emptyHistory)))
           /\ didNotCatch = replyTextOf llm).
Proof.
  apply (@POST_speech_voice
           Fixture.JSON_parse Fixture.toBase64
           (Fixture.hears "") (Fixture.answers "Hello.") Fixture.speaks
           (Fixture.upload Fixture.emptyHistory) alloy didNotCatch
           (inr [73; 68; 51]%N)).
  right. left. reflexivity.
Defined.

(** A reply while the synthesiser is down. *)
Lemma POST_speech_failure_is_text_only_witness :
  status (snd (Route.POST Fixture.JSON_parse Fixture.toBase64 (Fixture.hears "Hi")
                 (Fixture.answers "Hello.") Fixture.hoarse
                 (Fixture.upload Fixture.emptyHistory)))
  = 200%N
  /\ exists userTranscript,
       body (snd (Route.POST Fixture.JSON_parse Fixture.toBase64 (Fixture.hears "Hi")
                    (Fixture.answers "Hello.") Fixture.hoarse
                    (Fixture.upload Fixture.emptyHistory)))
       = Turn userTranscript (lit "Hello.") None.
Proof.
  apply (@POST_speech_failure_is_text_only
           Fixture.JSON_parse Fixture.toBase64
           (Fixture.hears "Hi") (Fixture.answers "Hello.") Fixture.hoarse
           (Fixture.upload Fixture.emptyHistory) nova (lit "Hello.")
           (mkException (lit "APIConnectionError") (lit "Connection error.") [])).
  right. right. left. reflexivity.
Defined.

(** An answer with white space around it. *)
Lemma POST_reply_is_first_choice_trimmed_witness :
  exists userTranscript audioBase64,
    body (snd (Fixture.serve (Fixture.hears "Hi") (Fixture.answers "  Hello. ")
                             (Fixture.upload Fixture.emptyHistory)))
    = Turn userTranscript (lit "Hello.") audioBase64.
Proof.
  apply (@POST_reply_is_first_choice_trimmed
           Fixture.JSON_parse Fixture.toBase64
           (Fixture.hears "Hi") (Fixture.answers "  Hello. ") Fixture.speaks
           (Fixture.upload Fixture.emptyHistory)
           [ApiChatMessage "system" systemPrompt; ApiChatMessage "user" (lit "Hi")]
           {| choices :=
                [ {| choice_message := Some {| content := Some (lit "  Hello. ") |} |} ] |}).
  right. left. reflexivity.
Defined.

(** A history field that is the literal [null], with a recording that is
    understood. *)
Lemma POST_history_not_iterable_witness :
  Route.POST Fixture.JSON_parse_null Fixture.toBase64 (Fixture.hears "Hi")
    (Fixture.answers "Hello.") Fixture.speaks
    (Fixture.upload (Some (EntryString (lit "null"))))
  = ([Transcribe Fixture.recording (inr (lit "Hi"))],
     failure (TypeError "conversationHistory is not iterable")).
Proof.
  apply (@POST_history_not_iterable
           Fixture.JSON_parse_null Fixture.toBase64
           (Fixture.hears "Hi") (Fixture.answers "Hello.") Fixture.speaks
           (Fixture.upload (Some (EntryString (lit "null"))))
           {| get_audio := Some (EntryFile Fixture.recording);
              get_history := Some (EntryString (lit "null")) |}
           Fixture.recording Null);
    try reflexivity; discriminate.
Defined.

Lemma POST_audio_as_text_field_witness :
  fst (Fixture.serve (Fixture.hears "Hi") (Fixture.answers "Hello.") Fixture.audioAsText)
  = []
  /\ status (snd (Fixture.serve (Fixture.hears "Hi") (Fixture.answers "Hello.")
                                Fixture.audioAsText))
     = 500%N.
Proof.
  apply (@POST_audio_as_text_field
           Fixture.JSON_parse Fixture.toBase64
           (Fixture.hears "Hi") (Fixture.answers "Hello.") Fixture.speaks
           Fixture.audioAsText
           {| get_audio := Some (EntryString (lit "recording.webm"));
              get_history := Fixture.emptyHistory |}
           (lit "recording.webm")); [reflexivity | reflexivity | discriminate].
Defined.

(** A transcript with white space around it comes back as it is. *)
Lemma POST_transcript_is_verbatim_witness :
  exists data file,
    formData (Fixture.upload Fixture.emptyHistory) = inr data
    /\ get_audio data = Some (EntryFile file)
    /\ In (Transcribe file (Fixture.hears " Hi " file))
          (fst (Fixture.serve (Fixture.hears " Hi ") (Fixture.answers "Hello.")
                              (Fixture.upload Fixture.emptyHistory)))
    /\ lit " Hi " = transcriptOf (Fixture.hears " Hi " file).
Proof.
  apply (@POST_transcript_is_verbatim
           Fixture.JSON_parse Fixture.toBase64
           (Fixture.hears " Hi ") (Fixture.answers "Hello.") Fixture.speaks
           (Fixture.upload Fixture.emptyHistory)
           (lit " Hi ") (lit "Hello.") (Some (lit "SUQz"))).
  reflexivity.
Defined.

End RouteEdges.

(** ** More about the client: its handlers one by one *)
Module PageEdges.
Import Js JsFacts Page PageFacts Session.

(** *** [split] and [fileExtension] *)

Lemma split_nonempty (sep : N) (s : jsstring) : split sep s <> [].
Proof.
  destruct s as [|c s]; cbn [split]; [discriminate|].
  destruct (c =? sep)%N; [discriminate|]. destruct (split sep s); discriminate.
Qed.

Lemma split_length (sep : N) (s : jsstring) :
  List.length (split sep s) = S (count_occ N.eq_dec s sep).
Proof.
  induction s as [|c s IH]; cbn [split count_occ]; [reflexivity|].
  destruct (N.eq_dec c sep) as [E|E].
  - apply N.eqb_eq in E. rewrite E. cbn [List.length]. now rewrite IH.
  - apply N.eqb_neq in E. rewrite E.
    destruct (split sep s) as [|seg segs] eqn:S; [now destruct (split_nonempty _ _ S)|].
    exact IH.
Qed.

(** Up to the first separator, a string is the first piece of its split. *)
Lemma split_app_sep (sep : N) (a b : jsstring) :
  ~ In sep a -> split sep (a ++ sep :: b) = a :: split sep b.
Proof.
  induction a as [|c a IH]; cbn [app split]; intros H.
  - now rewrite N.eqb_refl.
  - assert (E : (c =? sep)%N = false) by (apply N.eqb_neq; intros ->; apply H; now left).
    rewrite E, IH; [reflexivity|]. intros I. apply H. now right.
Qed.

Lemma hd_split_app (sep : N) (a rest : jsstring) :
  ~ In sep a -> hd [] (split sep (a ++ rest)) = a ++ hd [] (split sep rest).
Proof.
  induction a as [|c a IH]; cbn [app]; intros H; [reflexivity|].
  assert (E : (c =? sep)%N = false) by (apply N.eqb_neq; intros ->; apply H; now left).
  cbn [split]. rewrite E.
  destruct (split sep (a ++ rest)) as [|seg segs] eqn:S;
    [now destruct (split_nonempty _ _ S)|].
  cbn [hd] in *. rewrite <- IH; [reflexivity|]. intros I. apply H. now right.
Qed.

Lemma nth_error_1_split (sep : N) (a b : jsstring) :
  ~ In sep a -> nth_error (split sep (a ++ sep :: b)) 1 = Some (hd [] (split sep b)).
Proof.
  intros H. rewrite split_app_sep by assumption. cbn [nth_error].
  destruct (split sep b) as [|seg segs] eqn:S; [now destruct (split_nonempty _ _ S)|].
  reflexivity.
Qed.

(** X10. The file extension of a recording is the subtype of its MIME
    type: what stands between the first slash and the first semicolon after
    it, whether parameters follow or not. *)
Theorem fileExtension_is_subtype (type subtype params : jsstring) :
  ~ In 47%N type -> ~ In 47%N subtype -> ~ In 59%N subtype ->
  fileExtension (type ++ 47%N :: subtype) = Some subtype
  /\ fileExtension (type ++ 47%N :: subtype ++ 59%N :: params) = Some subtype.
Proof.
  intros Ht Hs Hp. unfold fileExtension. rewrite !nth_error_1_split by assumption.
  split; f_equal.
  - rewrite <- (app_nil_r subtype) at 1. rewrite (@hd_split_app 47%N subtype [] Hs).
    cbn. rewrite app_nil_r. rewrite <- (app_nil_r subtype) at 1.
    rewrite (@hd_split_app 59%N subtype [] Hp). cbn. now rewrite app_nil_r.
  - rewrite (@hd_split_app 47%N subtype (59%N :: params) Hs). cbn [split N.eqb Pos.eqb].
    destruct (split 47 params) as [|seg segs] eqn:S;
      [now destruct (split_nonempty _ _ S)|].
    cbn [hd]. now rewrite split_app_sep.
Qed.

(** X11. A MIME type has no file extension exactly when it holds no slash;
    [onstop] then stops on line 112, before any request is built. *)
Theorem fileExtension_none_iff (mimeType : jsstring) :
  fileExtension mimeType = None <-> ~ In 47%N mimeType.
Proof.
  unfold fileExtension.
  destruct (nth_error (split 47 mimeType) 1) as [subtype|] eqn:E.
  - split; [discriminate|]. intros H. exfalso.
    assert (L : nth_error (split 47 mimeType) 1 <> None) by congruence.
    apply nth_error_Some in L. rewrite split_length in L.
    apply (count_occ_not_In N.eq_dec) in H. lia.
  - split; [|reflexivity]. intros _.
    apply nth_error_None in E. rewrite split_length in E.
    apply (count_occ_not_In N.eq_dec). lia.
Qed.

(** *** The history sent with a request *)

Lemma slice_last_app {A} (n : nat) (old recent : list A) :
  n <= List.length recent -> slice_last n (old ++ recent) = slice_last n recent.
Proof.
  intros L. unfold slice_last. rewrite length_app, skipn_app.
  rewrite skipn_all2 by lia. cbn [app]. f_equal. lia.
Qed.

(** X12. The history depends on the last 8 turns only: whatever was said
    before them changes nothing in what is sent. *)
Theorem historyForApi_forgets_older_turns (old recent : list ConversationMessage) :
  8 <= List.length recent ->
  historyForApi (old ++ recent) = historyForApi recent.
Proof.
  intros L. unfold historyForApi. now rewrite slice_last_app.
Qed.

(** X13. The window of 8 turns is cut before the Error and System turns are
    dropped: each such turn among the last 8 leaves the history one entry
    shorter, and no older turn takes its place. *)
Theorem historyForApi_slots (conversation : list ConversationMessage) :
  8 <= List.length conversation ->
  List.length (historyForApi conversation)
  + List.length (filter (fun msg => negb (isUserOrAssistant msg))
                        (slice_last 8 conversation))
  = 8.
Proof.
  intros L. unfold historyForApi. rewrite length_map, filter_length.
  unfold slice_last. rewrite length_skipn. lia.
Qed.

(** *** Data events *)

(** X14. Data events add their blobs to the chunks in the order they come,
    the empty ones left out, and change nothing else; the bytes of the blob
    that a stop event would build are the bytes held before, then all the
    bytes of the events in order. *)
Theorem ondataavailable_accumulates (datas : list Blob) (type : jsstring)
    (c : Component) :
  let c' := fold_left (fun c data => ondataavailable data c) datas c in
  c' = setAudioChunks
         (audioChunks c ++ filter (fun data => (0 <? size data)%N) datas) c
  /\ blob_bytes (newBlob (audioChunks c') type)
     = blob_bytes (newBlob (audioChunks c) type)
       ++ List.concat (map blob_bytes datas).
Proof.
  cbv zeta. revert c. induction datas as [|data datas IH]; intros c; cbn [fold_left filter].
  - rewrite !app_nil_r. split; [now destruct c | reflexivity].
  - destruct (IH (ondataavailable data c)) as [E B]. rewrite B, E. clear IH E B.
    unfold ondataavailable. destruct (0 <? size data)%N eqn:Z.
    + cbn. rewrite <- !app_assoc. split; [reflexivity|].
      rewrite map_app, concat_app. cbn. now rewrite app_nil_r, <- app_assoc.
    + split; [reflexivity|]. cbn. f_equal.
      apply N.ltb_ge in Z. unfold size in Z.
      destruct (blob_bytes data); [reflexivity | cbn in Z; lia].
Qed.

(** *** Replay *)

Section Replay.

Variable String_of : Value -> jsstring.

(** X15. Replaying leaves the state of the session alone (recording and
    loading flags, transcript, status, chunks, recorder and stream): with a
    truthy audio and the player mounted it points the player at the data URL
    of the audio and plays it, and otherwise it does nothing at all. *)
Theorem replayAudio_only_plays (audioBase64 : option Value) (c : Component) :
  let c' := replayAudio String_of audioBase64 c in
  let audioSrc := lit "data:audio/mp3;base64," ++ toString String_of audioBase64 in
  isRecording c' = isRecording c /\ isLoading c' = isLoading c
  /\ conversation c' = conversation c /\ status c' = status c
  /\ audioChunks c' = audioChunks c /\ mediaRecorder c' = mediaRecorder c
  /\ mediaStream c' = mediaStream c
  /\ if truthy_opt audioBase64 && match audioPlayer c with Some _ => true | None => false end
     then audioPlayer c' = Some audioSrc /\ effects c' = effects c ++ [Play audioSrc]
     else c' = c.
Proof.
  cbv zeta. unfold replayAudio.
  destruct (truthy_opt audioBase64), (audioPlayer c) eqn:P; cbn; rewrite ?P; auto 10.
Qed.

End Replay.

(** *** Releasing the microphone *)

Lemma performed_app (c c' : Component) (added : list Effect) :
  effects c' = effects c ++ added -> performed c c' = added.
Proof.
  intros E. unfold performed. rewrite E, skipn_app, skipn_all, Nat.sub_diag.
  reflexivity.
Qed.

Lemma releaseStream_run (c : Component) :
  mediaStream (releaseStream c) = None
  /\ effects (releaseStream c) = effects c ++ released c.
Proof.
  unfold releaseStream, released. destruct (mediaStream c) eqn:M; cbn.
  - auto.
  - now rewrite app_nil_r.
Qed.

(** *** A stop event, step by step *)

Lemma atSubmission_run (c : Component) :
  mediaStream (atSubmission c) = None
  /\ effects (atSubmission c) = effects c ++ released c
  /\ audioChunks (atSubmission c) = audioChunks c
  /\ conversation (atSubmission c) = conversation c
  /\ audioPlayer (atSubmission c) = audioPlayer c.
Proof.
  unfold atSubmission, releaseStream, released.
  destruct c as [rec load conv st mr chunks player [stream|] eff]; cbn;
    rewrite ?app_nil_r; auto.
Qed.

Lemma catchBlock_run (error : Exception) (c : Component) :
  mediaStream c = None ->
  conversation (catchBlock error c) = conversation c ++ [errorTurn error]
  /\ effects (catchBlock error c) = effects c
  /\ mediaStream (catchBlock error c) = None
  /\ audioPlayer (catchBlock error c) = audioPlayer c.
Proof.
  intros M. unfold catchBlock, releaseStream. cbn. rewrite M. cbn. auto.
Qed.

Lemma finallyBlock_keeps (env : Render) (c : Component) :
  mediaStream (finallyBlock env c) = mediaStream c
  /\ audioPlayer (finallyBlock env c) = audioPlayer c
  /\ mediaRecorder (finallyBlock env c) = mediaRecorder c.
Proof.
  unfold finallyBlock.
  destruct (negb (startsWith (r_status env) (lit "Error")) && _ && _); cbn; auto.
Qed.

Section Submission.

Variable fetch : FormData -> Exception + Response.
Variable play : jsstring -> bool.
Variable String_of : Value -> jsstring.

Abbreviation onstop := (Page.onstop fetch String_of).
Abbreviation stopped := (Page.stopped fetch play String_of).
Abbreviation tryCatch := (Page.tryCatch fetch String_of).

(** The three ways out of [onstop]. *)
Lemma onstop_without_chunks (r : MediaRecorder) (c : Component) :
  audioChunks c = [] ->
  onstop r c
  = (setIsRecording false
       (setIsLoading false (setStatus noAudioDetected (atSubmission c))), None).
Proof.
  intros A. unfold Page.onstop. fold (atSubmission c).
  destruct (atSubmission_run c) as [_ [_ [C _]]]. now rewrite C, A.
Qed.

Lemma onstop_without_extension (r : MediaRecorder) (c : Component) :
  audioChunks c <> [] -> fileExtension (mimeType r) = None ->
  onstop r c = (atSubmission c, None).
Proof.
  intros A X. unfold Page.onstop. fold (atSubmission c).
  destruct (atSubmission_run c) as [_ [_ [C _]]]. rewrite C, X.
  destruct (audioChunks c); [congruence | reflexivity].
Qed.

Lemma onstop_submits (r : MediaRecorder) (c : Component) (ext : jsstring) :
  audioChunks c <> [] -> fileExtension (mimeType r) = Some ext ->
  onstop r c
  = (finallyBlock (closure r) (fst (tryCatch (requestOf r c ext) (atSubmission c))),
     snd (tryCatch (requestOf r c ext) (atSubmission c))).
Proof.
  intros A X. unfold Page.onstop. fold (atSubmission c).
  destruct (atSubmission_run c) as [_ [_ [C _]]]. rewrite C, X. unfold requestOf.
  destruct (audioChunks c) as [|chunk chunks]; [congruence|].
  now destruct (Page.tryCatch _ _ _ _).
Qed.

Lemma received_run (response : Response) (c : Component) :
  let result := received String_of response c in
  mediaStream (fst result) = mediaStream c
  /\ ((exists error, snd result = inl error
                     /\ conversation (fst result) = conversation c
                     /\ effects (fst result) = effects c
                     /\ appended response = [])
      \/ (exists you reply, appended response = [you; reply]
                            /\ conversation (fst result) = conversation c ++ [you; reply]
                            /\ ((exists src, snd result = inr (Some src)
                                             /\ effects (fst result) = effects c ++ [Play src])
                                \/ (snd result = inr None
                                    /\ effects (fst result) = effects c)))).
Proof.
  cbv zeta. unfold received, appended.
  destruct (resp_json response) as [e|data]; [cbn; eauto 10|].
  destruct (get data "userTranscript") as [e|userTranscript]; [cbn; eauto 10|].
  destruct (get data "llmTextResponse") as [e|llmTextResponse]; [cbn; eauto 10|].
  destruct (get data "audioBase64") as [e|audioBase64]; [cbn; eauto 10|].
  destruct (as_string userTranscript) as [ut|]; [|cbn; eauto 10].
  destruct (as_string llmTextResponse) as [lt|]; [|cbn; eauto 10].
  cbn [audioPlayer appendConversation setStatus].
  destruct (truthy_opt audioBase64), (audioPlayer c), (negb (eqb lt []));
    cbn; split; auto; right; do 2 eexists; (split; [reflexivity|]); split; eauto 10.
Qed.

Lemma tryCatch_rejected (formData : FormData) (c : Component) (error : Exception) :
  fetch formData = inl error ->
  tryCatch formData c = (catchBlock error (perform (Fetch formData) c), None).
Proof. intros F. unfold Page.tryCatch, tryBlock. now rewrite F. Qed.

Lemma tryCatch_not_ok (formData : FormData) (c : Component) (response : Response) :
  fetch formData = inr response -> ok response = false ->
  tryCatch formData c
  = (catchBlock (newError (errorMsgOf String_of response))
       (perform (Fetch formData) c), None).
Proof. intros F K. unfold Page.tryCatch, tryBlock. now rewrite F, K. Qed.

Lemma tryCatch_ok (formData : FormData) (c : Component) (response : Response) :
  fetch formData = inr response -> ok response = true ->
  tryCatch formData c
  = match received String_of response (perform (Fetch formData) c) with
    | (c', inr playing) => (c', playing)
    | (c', inl error) => (catchBlock error c', None)
    end.
Proof. intros F K. unfold Page.tryCatch, tryBlock. now rewrite F, K. Qed.

(** The [try] and its [catch] together: one request, then either one error
    turn, or the two turns of an exchange and at most one playback. *)
Lemma tryCatch_run (formData : FormData) (c : Component) :
  mediaStream c = None ->
  let result := tryCatch formData c in
  mediaStream (fst result) = None
  /\ exists added rest,
       conversation (fst result) = conversation c ++ added
       /\ effects (fst result) = effects c ++ Fetch formData :: rest
       /\ ((exists error, added = [errorTurn error] /\ rest = [] /\ snd result = None)
           \/ (exists response you reply,
                 fetch formData = inr response /\ ok response = true
                 /\ appended response = [you; reply] /\ added = [you; reply]
                 /\ ((rest = [] /\ snd result = None)
                     \/ exists src, rest = [Play src] /\ snd result = Some src))).
Proof.
  intros M. cbv zeta.
  assert (Caught : forall error c',
             mediaStream c' = None -> conversation c' = conversation c ->
             effects c' = effects c ++ [Fetch formData] ->
             mediaStream (fst (catchBlock error c', @None jsstring)) = None
             /\ exists added rest,
                  conversation (fst (catchBlock error c', @None jsstring))
                  = conversation c ++ added
                  /\ effects (fst (catchBlock error c', @None jsstring))
                     = effects c ++ Fetch formData :: rest
                  /\ ((exists error0, added = [errorTurn error0] /\ rest = []
                                      /\ snd (catchBlock error c', @None jsstring) = None)
                      \/ (exists response you reply,
                            fetch formData = inr response /\ ok response = true
                            /\ appended response = [you; reply] /\ added = [you; reply]
                            /\ ((rest = []
                                 /\ snd (catchBlock error c', @None jsstring) = None)
                                \/ exists src,
                                     rest = [Play src]
                                     /\ snd (catchBlock error c', @None jsstring)
                                        = Some src)))).
  { intros error c' M' C' E'. destruct (@catchBlock_run error c' M') as [Cc [Ec [Mc _]]].
    cbn [fst snd]. split; [exact Mc|]. exists [errorTurn error], [].
    rewrite Cc, Ec, C', E'. split; [reflexivity|]. split; [reflexivity|].
    left. eauto. }
  destruct (fetch formData) as [error|response] eqn:F.
  - rewrite (@tryCatch_rejected formData c error F). apply Caught; auto.
  - destruct (ok response) eqn:K.
    + rewrite (@tryCatch_ok formData c response F K).
      pose proof (@received_run response (perform (Fetch formData) c)) as R.
      cbv zeta in R.
      destruct (received String_of response (perform (Fetch formData) c))
        as [c' [error|playing]]; cbn [fst snd] in R; destruct R as [Mr R].
      * destruct R as [[e [_ [Cr [Er _]]]]|[you [reply [_ [_ [[src [X _]]|[X _]]]]]]];
          try discriminate.
        apply Caught; [now rewrite Mr | exact Cr | exact Er].
      * cbn [fst snd]. split; [now rewrite Mr|].
        destruct R as [[e [X _]]|[you [reply [A [Cr P]]]]]; [discriminate|].
        exists [you; reply].
        destruct P as [[src [X Er]]|[X Er]]; injection X as ->.
        -- exists [Play src]. rewrite Cr, Er. cbn [effects perform].
           rewrite <- app_assoc. split; [reflexivity|]. split; [reflexivity|].
           right. exists response, you, reply. eauto 10.
        -- exists []. rewrite Cr, Er. split; [reflexivity|]. split; [reflexivity|].
           right. exists response, you, reply. auto 10.
    + rewrite (@tryCatch_not_ok formData c response F K). apply Caught; auto.
Qed.

(** X16. A handler that ends a recording lets go of the microphone: after
    the recorder's error handler, the unmount cleanup, a failed start, and a
    stop event on any of its paths, no stream is held, and the tracks of the
    stream that was held were stopped once, before anything else the
    handler did. *)
Theorem stream_is_released (r : MediaRecorder) (err : Exception) (c : Component) :
  Forall (fun c' =>
            mediaStream c' = None
            /\ exists rest,
                 performed c c' = released c ++ rest
                 /\ forall stream, ~ In (StopTracks stream) rest)
         [onerror c; unmount c; startFailed err c; fst (onstop r c)].
Proof.
  assert (Plain : forall c', mediaStream c' = None ->
                             effects c' = effects c ++ released c ->
                             mediaStream c' = None
                             /\ exists rest,
                                  performed c c' = released c ++ rest
                                  /\ forall stream, ~ In (StopTracks stream) rest).
  { intros c' M E. split; [exact M|]. exists []. rewrite app_nil_r.
    split; [now apply performed_app | auto]. }
  apply Forall_cons; [|apply Forall_cons; [|apply Forall_cons;
                        [|apply Forall_cons; [|apply Forall_nil]]]].
  - apply Plain; unfold onerror, releaseStream, released;
      destruct c as [rec load conv st mr chunks player [stream|] eff]; cbn;
      rewrite ?app_nil_r; reflexivity.
  - apply Plain; unfold unmount, releaseStream, released;
      destruct c as [rec load conv st [[env m []]|] chunks player [stream|] eff]; cbn;
      rewrite ?app_nil_r; reflexivity.
  - apply Plain; unfold startFailed, releaseStream, released;
      destruct (eqb (name err) (lit "NotAllowedError")),
               (eqb (name err) (lit "NotFoundError"));
      destruct c as [rec load conv st mr chunks player [stream|] eff]; cbn;
      rewrite ?app_nil_r; reflexivity.
  - destruct (atSubmission_run c) as [M [E [A _]]].
    destruct (audioChunks c) as [|chunk chunks] eqn:Chunks.
    { rewrite (@onstop_without_chunks r c Chunks). apply Plain; [exact M | exact E]. }
    assert (NE : audioChunks c <> []) by congruence.
    destruct (fileExtension (mimeType r)) as [ext|] eqn:X.
    2:{ rewrite (@onstop_without_extension r c NE X). apply Plain; assumption. }
    rewrite (@onstop_submits r c ext NE X). cbn [fst].
    destruct (@tryCatch_run (requestOf r c ext) (atSubmission c) M)
      as [M' [added [rest [_ [E' Shape]]]]].
    destruct (@finallyBlock_keeps (closure r)
                (fst (tryCatch (requestOf r c ext) (atSubmission c)))) as [Mf _].
    split; [now rewrite Mf|].
    exists (Fetch (requestOf r c ext) :: rest). split.
    + apply performed_app. rewrite finallyBlock_effects, E', E. now rewrite app_assoc.
    + intros stream [I|I]; [discriminate|].
      destruct Shape as [[e [_ [-> _]]]|[resp [you [reply [_ [_ [_ [_ [[-> _]|[src [-> _]]]]]]]]]]];
        cbn in I; intuition discriminate.
Qed.

(** A stop event that builds a request, in terms of its [try]/[catch]. *)
Lemma stopped_submits (r : MediaRecorder) (c : Component) (ext : jsstring) :
  audioChunks c <> [] -> fileExtension (mimeType r) = Some ext ->
  let result := tryCatch (requestOf r c ext) (atSubmission c) in
  conversation (stopped r c) = conversation (fst result)
  /\ effects (stopped r c) = effects (fst result)
  /\ mediaStream (stopped r c) = mediaStream (fst result)
  /\ isLoading (stopped r c) = false
  /\ isRecording (stopped r c) = false
  /\ audioChunks (stopped r c) = []
  /\ status (stopped r c)
     = match snd result with
       | Some src =>
           if play src
           then lit "Playing response... Click Start Recording when ready."
           else lit "Received response. Click 'Replay Audio' to listen."
       | None => status (finallyBlock (closure r) (fst result))
       end
  /\ audioPlayer (stopped r c) = audioPlayer (fst result).
Proof.
  intros A X. cbv zeta. unfold Page.stopped. rewrite (@onstop_submits r c ext A X).
  destruct (tryCatch (requestOf r c ext) (atSubmission c)) as [c2 playing].
  cbn [fst snd].
  destruct (@finallyBlock_resets (closure r) c2) as [L [R [K C]]].
  destruct (@finallyBlock_keeps (closure r) c2) as [M [P _]].
  pose proof (@finallyBlock_effects (closure r) c2) as E.
  unfold settled. destruct playing as [src|]; [destruct (play src)|]; cbn; auto 10.
Qed.

(** X17. A stop event with chunks builds exactly one request, after the
    microphone is released: the audio is the chunks joined, typed with the
    recorder's MIME type and named [recording.] plus its extension, the
    history is that of the render the recording was started in. Besides the
    request, at most one playback follows. *)
Theorem stop_sends_one_request (r : MediaRecorder) (c : Component) (ext : jsstring) :
  audioChunks c <> [] ->
  fileExtension (mimeType r) = Some ext ->
  exists rest,
    performed c (stopped r c)
    = released c
      ++ Fetch {| fd_audio := newBlob (audioChunks c) (mimeType r);
                  fd_filename := lit "recording." ++ ext;
                  fd_history := historyForApi (r_conversation (closure r)) |}
      :: rest
    /\ (rest = [] \/ exists src, rest = [Play src]).
Proof.
  intros A X. destruct (@stopped_submits r c ext A X) as [_ [E _]].
  destruct (atSubmission_run c) as [M [Es _]].
  destruct (@tryCatch_run (requestOf r c ext) (atSubmission c) M)
    as [_ [added [rest [_ [Et Shape]]]]].
  exists rest. split.
  - apply performed_app. rewrite E, Et, Es. now rewrite app_assoc.
  - destruct Shape as [[e [_ [-> _]]]|[resp [you [reply [_ [_ [_ [_ [[-> _]|[src [-> _]]]]]]]]]]];
      eauto.
Qed.

(** X18. When [fetch] rejects, the stop event appends one Error turn that
    carries the message of the error, and nothing else: the earlier turns
    stay, nothing is played, the flags are down, the chunks cleared and no
    stream is held. *)
Theorem rejected_fetch_adds_error_turn
    (r : MediaRecorder) (c : Component) (ext : jsstring) (networkError : Exception) :
  audioChunks c <> [] ->
  fileExtension (mimeType r) = Some ext ->
  fetch (requestOf r c ext) = inl networkError ->
  conversation (stopped r c)
  = conversation c
    ++ [ {| role := Error;
            text := lit "Processing failed: " ++ message networkError;
            audio := None |} ]
  /\ performed c (stopped r c) = released c ++ [Fetch (requestOf r c ext)]
  /\ isLoading (stopped r c) = false
  /\ isRecording (stopped r c) = false
  /\ audioChunks (stopped r c) = []
  /\ mediaStream (stopped r c) = None.
Proof.
  intros A X F.
  destruct (@stopped_submits r c ext A X) as [C [E [M [L [R [K _]]]]]].
  rewrite (@tryCatch_rejected (requestOf r c ext) (atSubmission c) networkError F)
    in C, E, M.
  cbn [fst] in C, E, M.
  destruct (atSubmission_run c) as [Ms [Es [_ [Cs _]]]].
  destruct (@catchBlock_run networkError
              (perform (Fetch (requestOf r c ext)) (atSubmission c)) Ms)
    as [Cc [Ec [Mc _]]].
  repeat apply conj; auto.
  - rewrite C, Cc. cbn [conversation perform]. now rewrite Cs.
  - apply performed_app. rewrite E, Ec. cbn [effects perform]. rewrite Es.
    now rewrite <- app_assoc.
  - now rewrite M.
Qed.


(** [received] on a response whose two texts are strings. *)
Lemma received_ok (response : Response) (you reply : ConversationMessage)
    (c : Component) :
  appended response = [you; reply] ->
  let audioSrc := lit "data:audio/mp3;base64," ++ toString String_of (audio reply) in
  let c' := appendConversation [you; reply] (setStatus (lit "Received response.") c) in
  received String_of response c
  = if truthy_opt (audio reply)
       && match audioPlayer c with Some _ => true | None => false end
    then (perform (Play audioSrc) (setAudioPlayerSrc audioSrc c'), inr (Some audioSrc))
    else (setStatus
            (if negb (eqb (text reply) [])
             then lit "Received text response. Click Start Recording when ready."
             else lit "Processing complete. Click Start Recording.") c',
          inr None).
Proof.
  cbv zeta. unfold received, appended.
  destruct (resp_json response) as [e|data]; [discriminate|].
  destruct (get data "userTranscript") as [e|userTranscript]; [discriminate|].
  destruct (get data "llmTextResponse") as [e|llmTextResponse]; [discriminate|].
  destruct (get data "audioBase64") as [e|audioBase64]; [discriminate|].
  destruct (as_string userTranscript) as [ut|]; [|discriminate].
  destruct (as_string llmTextResponse) as [lt|]; [|discriminate].
  intros [= <- <-]. cbn [audio text audioPlayer appendConversation setStatus].
  destruct (truthy_opt audioBase64), (audioPlayer c), (negb (eqb lt [])); reflexivity.
Qed.

(** A stop event whose request is answered with an ok status and the two
    texts. *)
Lemma stopped_ok (r : MediaRecorder) (c : Component) (ext : jsstring)
    (response : Response) (you reply : ConversationMessage) :
  audioChunks c <> [] -> fileExtension (mimeType r) = Some ext ->
  fetch (requestOf r c ext) = inr response -> ok response = true ->
  appended response = [you; reply] ->
  let audioSrc := lit "data:audio/mp3;base64," ++ toString String_of (audio reply) in
  conversation (stopped r c) = conversation c ++ [you; reply]
  /\ if truthy_opt (audio reply)
        && match audioPlayer c with Some _ => true | None => false end
     then performed c (stopped r c)
          = released c ++ [Fetch (requestOf r c ext); Play audioSrc]
          /\ audioPlayer (stopped r c) = Some audioSrc
          /\ status (stopped r c)
             = (if play audioSrc
                then lit "Playing response... Click Start Recording when ready."
                else lit "Received response. Click 'Replay Audio' to listen.")
     else performed c (stopped r c) = released c ++ [Fetch (requestOf r c ext)]
          /\ audioPlayer (stopped r c) = audioPlayer c.
Proof.
  intros A X F K App. cbv zeta.
  destruct (atSubmission_run c) as [Ms [Es [_ [Cs Ps]]]].
  destruct (@stopped_submits r c ext A X) as [C [E [_ [_ [_ [_ [St Pl]]]]]]].
  rewrite (@tryCatch_ok (requestOf r c ext) (atSubmission c) response F K)
    in C, E, St, Pl.
  rewrite (@received_ok response you reply _ App) in C, E, St, Pl.
  cbn [audioPlayer perform] in C, E, St, Pl. rewrite Ps in C, E, St, Pl.
  destruct (truthy_opt (audio reply)
            && match audioPlayer c with Some _ => true | None => false end) eqn:T;
    cbn [fst snd] in C, E, St, Pl.
  - apply andb_prop in T as [_ T]. destruct (audioPlayer c) as [old|] eqn:P; [|discriminate].
    split; [rewrite C; cbn; now rewrite Cs|]. split; [|split].
    + apply performed_app. rewrite E. cbn. rewrite Es, <- !app_assoc. reflexivity.
    + rewrite Pl. cbn. rewrite ?Ps, ?P. reflexivity.
    + exact St.
  - split; [rewrite C; cbn; now rewrite Cs|]. split.
    + apply performed_app. rewrite E. cbn. rewrite Es, <- !app_assoc. reflexivity.
    + rewrite Pl. cbn. rewrite ?Ps. reflexivity.
Qed.

Lemma stopped_not_ok (r : MediaRecorder) (c : Component) (ext : jsstring)
    (response : Response) :
  audioChunks c <> [] -> fileExtension (mimeType r) = Some ext ->
  fetch (requestOf r c ext) = inr response -> ok response = false ->
  conversation (stopped r c)
  = conversation c ++ [errorTurn (newError (errorMsgOf String_of response))]
  /\ performed c (stopped r c) = released c ++ [Fetch (requestOf r c ext)].
Proof.
  intros A X F K.
  destruct (@stopped_submits r c ext A X) as [C [E _]].
  rewrite (@tryCatch_not_ok (requestOf r c ext) (atSubmission c) response F K) in C, E.
  cbn [fst] in C, E.
  destruct (atSubmission_run c) as [Ms [Es [_ [Cs _]]]].
  destruct (@catchBlock_run (newError (errorMsgOf String_of response))
              (perform (Fetch (requestOf r c ext)) (atSubmission c)) Ms)
    as [Cc [Ec _]].
  split.
  - rewrite C, Cc. cbn [conversation perform]. now rewrite Cs.
  - apply performed_app. rewrite E, Ec. cbn [effects perform]. rewrite Es.
    now rewrite <- app_assoc.
Qed.

End Submission.

(** *** The route's answer in the client *)

Section EndToEnd.

Variable JSON_parse : jsstring -> Exception + Value.
Variable toBase64 : list N -> jsstring.
Variable audio_transcriptions_create : Route.File -> Exception + jsstring.
Variable chat_completions_create : list Value -> Exception + Route.ChatCompletion.
Variable audio_speech_create : Route.Voice -> jsstring -> Exception + list N.
Variable play : jsstring -> bool.
Variable String_of : Value -> jsstring.

Abbreviation POST :=
  (Route.POST JSON_parse toBase64 audio_transcriptions_create
     chat_completions_create audio_speech_create).

(** A stop event whose request is answered by the route. *)
Abbreviation answered reason request :=
  (Page.stopped (fun _ => inr (delivered reason (snd (POST request)))) play String_of).

(** The route's responses, as the client meets them. *)
Lemma POST_delivered (request : Route.NextRequest) (reason : jsstring) :
  let response := delivered reason (snd (POST request)) in
  (ok response = true
   /\ exists userTranscript llmTextResponse audioBase64,
        Route.body (snd (POST request))
        = Route.Turn userTranscript llmTextResponse audioBase64
        /\ llmTextResponse <> []
        /\ appended response
           = turnsFor (Route.Turn userTranscript llmTextResponse audioBase64))
  \/ (ok response = false
      /\ exists error,
           errorMsgOf String_of response = error
           /\ turnsFor (Route.body (snd (POST request)))
              = [ {| role := Error; text := lit "Processing failed: " ++ error;
                     audio := None |} ]).
Proof.
  pose proof (RouteFacts.POST_outcome JSON_parse toBase64 audio_transcriptions_create
                chat_completions_create audio_speech_create request) as O.
  remember (fst (POST request)) as trace. remember (snd (POST request)) as response.
  cbv zeta.
  destruct O; try (right; split; [reflexivity|]; eexists; split; reflexivity).
  - left. split; [reflexivity|]. do 3 eexists. split; [reflexivity|]. split.
    + apply RouteFacts.clarificationFor_nonempty.
    + reflexivity.
  - left. split; [reflexivity|]. do 3 eexists. split; [reflexivity|]. split.
    + apply RouteFacts.replyTextOf_nonempty.
    + reflexivity.
Qed.

(** X20. Whatever the route answers, the client turns it into the turns it
    stands for: for the three-field body, the user's turn with the
    transcript (a placeholder when it is empty) and the assistant's turn
    with the reply text and the audio; for an error body, one Error turn
    with its [error] string. The [details] of a server error are not
    shown. *)
Theorem route_response_becomes_turns
    (request : Route.NextRequest) (reason : jsstring)
    (r : MediaRecorder) (c : Component) (ext : jsstring) :
  audioChunks c <> [] ->
  fileExtension (mimeType r) = Some ext ->
  conversation (answered reason request r c)
  = conversation c ++ turnsFor (Route.body (snd (POST request))).
Proof.
  intros A X.
  destruct (POST_delivered request reason) as [[K [ut [lt [a [B [_ App]]]]]]|[K [error [M T]]]].
  - rewrite B.
    destruct (@stopped_ok (fun _ => inr (delivered reason (snd (POST request))))
                play String_of r c ext _ _ _ A X eq_refl K App) as [C _].
    exact C.
  - destruct (@stopped_not_ok (fun _ => inr (delivered reason (snd (POST request))))
                play String_of r c ext _ A X eq_refl K) as [C _].
    rewrite C, T. unfold errorTurn, newError. cbn [message]. now rewrite M.
Qed.

(** X21. The reply of the route is played exactly when it carries audio
    that is not the empty string (and the player is mounted): the player is
    pointed at the MP3 data URL of that audio, and the status that remains
    tells whether playback started or has to be started by hand. With no
    audio, nothing is played. *)
Theorem route_audio_is_played
    (request : Route.NextRequest) (reason : jsstring)
    (r : MediaRecorder) (c : Component) (ext : jsstring) :
  audioChunks c <> [] ->
  fileExtension (mimeType r) = Some ext ->
  audioPlayer c <> None ->
  match Route.body (snd (POST request)) with
  | Route.Turn _ _ (Some audioBase64) =>
      let audioSrc := lit "data:audio/mp3;base64," ++ audioBase64 in
      if eqb audioBase64 []
      then performed c (answered reason request r c)
           = released c ++ [Fetch (requestOf r c ext)]
      else performed c (answered reason request r c)
           = released c ++ [Fetch (requestOf r c ext); Play audioSrc]
           /\ audioPlayer (answered reason request r c) = Some audioSrc
           /\ status (answered reason request r c)
              = (if play audioSrc
                 then lit "Playing response... Click Start Recording when ready."
                 else lit "Received response. Click 'Replay Audio' to listen.")
  | _ => performed c (answered reason request r c)
         = released c ++ [Fetch (requestOf r c ext)]
  end.
Proof.
  intros A X P.
  destruct (POST_delivered request reason) as [[K [ut [lt [a [B [_ App]]]]]]|[K [error [M T]]]].
  - rewrite B.
    destruct (@stopped_ok (fun _ => inr (delivered reason (snd (POST request))))
                play String_of r c ext _ _ _ A X eq_refl K App) as [_ Played].
    cbn [audio] in Played.
    destruct (audioPlayer c) as [old|]; [|congruence].
    destruct a as [a|]; cbn [truthy_opt truthy andb toString] in Played.
    + cbv zeta. destruct (eqb a []); cbn [negb] in Played;
        [exact (proj1 Played) | exact Played].
    + exact (proj1 Played).
  - destruct (@stopped_not_ok (fun _ => inr (delivered reason (snd (POST request))))
                play String_of r c ext _ A X eq_refl K) as [_ E].
    destruct (Route.body (snd (POST request))) as [ut lt a| |]; try exact E.
    discriminate T.
Qed.

End EndToEnd.

(** *** Starting a recording *)

Lemma find_first {A} (f : A -> bool) (l : list A) :
  match find f l with
  | Some x => exists before after,
                l = before ++ x :: after
                /\ Forall (fun y => f y = false) before /\ f x = true
  | None => Forall (fun y => f y = false) l
  end.
Proof.
  induction l as [|y l IH]; cbn [find]; [constructor|].
  destruct (f y) eqn:Y.
  - exists [], l. auto.
  - destruct (find f l) as [x|].
    + destruct IH as [before [after [E [F X]]]]. exists (y :: before), after.
      rewrite E. auto.
    + auto.
Qed.

(** X22. A start that gets a stream records in the first format of the
    preference list that the browser supports: every format before it is
    unsupported, the chunks are emptied and the stream is held. When no
    format is supported the stream is let go and no recorder is installed. *)
Theorem startRecording_selects_first_supported
    (env : Render) (stream : MediaStream) (isTypeSupported : jsstring -> bool)
    (c : Component) :
  r_isRecording env = false ->
  let started := startRecording env (inr stream) isTypeSupported None None c in
  (Forall (fun type => isTypeSupported type = false) supportedTypes
   /\ mediaRecorder started = mediaRecorder c
   /\ isRecording started = isRecording c
   /\ mediaStream started = None
   /\ In (StopTracks stream) (performed c started)
   /\ status started = lit "Error: No supported audio format found for recording.")
  \/ (exists before mimeType after,
        supportedTypes = before ++ mimeType :: after
        /\ Forall (fun type => isTypeSupported type = false) before
        /\ isTypeSupported mimeType = true
        /\ mediaRecorder started
           = Some {| closure := env; mimeType := mimeType; rec_state := recording |}
        /\ isRecording started = true
        /\ audioChunks started = []
        /\ mediaStream started = Some stream
        /\ status started = lit "Recording... Click Stop Recording").
Proof.
  intros R. cbv zeta. unfold startRecording. rewrite R.
  pose proof (find_first isTypeSupported supportedTypes) as F.
  destruct (find isTypeSupported supportedTypes) as [mimeType|].
  - right. destruct F as [before [after [E [U S]]]].
    exists before, mimeType, after. destruct (mediaStream c); cbn; auto 10.
  - left. split; [exact F|].
    destruct c as [rec load conv st mr chunks player [held|] eff]; cbn;
      repeat split; unfold performed; cbn;
      rewrite <- ?app_assoc, skipn_app, skipn_all, Nat.sub_diag; cbn; auto.
Qed.

(** X23. A start that fails, because the microphone is refused or missing,
    no format is supported, or the recorder cannot be made or started, ends
    with no stream held, a stream just obtained having its tracks stopped,
    with [isRecording] false and a status that begins with Error. It never
    touches the transcript or the loading flag, and does nothing to the
    outside but stop tracks. *)
Theorem failed_start_releases
    (getUserMedia : Exception + MediaStream) (isTypeSupported : jsstring -> bool)
    (construct start : option Exception) (c : Component) :
  isRecording c = false ->
  (exists err, getUserMedia = inl err)
  \/ find isTypeSupported supportedTypes = None
  \/ construct <> None \/ start <> None ->
  let final := startRecording (render c) getUserMedia isTypeSupported construct start c in
  mediaStream final = None
  /\ isRecording final = false
  /\ startsWith (status final) (lit "Error") = true
  /\ conversation final = conversation c
  /\ isLoading final = isLoading c
  /\ (forall stream, getUserMedia = inr stream -> In (StopTracks stream) (performed c final))
  /\ Forall (fun e => exists stream, e = StopTracks stream) (performed c final).
Proof.
  intros R Fails. cbv zeta. unfold startRecording. cbn [render r_isRecording]. rewrite R.
  assert (Failed : forall err c' added,
             effects c' = effects c ++ added ->
             Forall (fun e => exists stream, e = StopTracks stream) added ->
             conversation c' = conversation c -> isLoading c' = isLoading c ->
             (forall stream, getUserMedia = inr stream -> mediaStream c' = Some stream) ->
             let final := startFailed err c' in
             mediaStream final = None
             /\ isRecording final = false
             /\ startsWith (status final) (lit "Error") = true
             /\ conversation final = conversation c
             /\ isLoading final = isLoading c
             /\ (forall stream, getUserMedia = inr stream ->
                                In (StopTracks stream) (performed c final))
             /\ Forall (fun e => exists stream, e = StopTracks stream) (performed c final)).
  { intros err c' added E A C L G. cbv zeta. unfold startFailed, releaseStream.
    destruct (eqb (name err) (lit "NotAllowedError")),
             (eqb (name err) (lit "NotFoundError"));
      cbn [mediaStream setIsRecording setStatus];
      destruct (mediaStream c') as [held|] eqn:M; cbn;
      repeat split; auto;
      try (unfold performed; cbn; rewrite E, <- ?app_assoc, skipn_app, skipn_all,
             Nat.sub_diag; cbn).
    all: try (intros stream S; specialize (G stream S)).
    all: try (apply in_or_app; right; left; congruence).
    all: try (apply Forall_app; split; [exact A | repeat constructor; eauto]).
    all: try congruence.
    all: try exact A. }
  set (c1 := match mediaStream c with Some s => perform (StopTracks s) c | None => c end).
  assert (E1 : exists added, effects c1 = effects c ++ added
                             /\ Forall (fun e => exists stream, e = StopTracks stream) added
                             /\ conversation c1 = conversation c
                             /\ isLoading c1 = isLoading c
                             /\ isRecording c1 = isRecording c).
  { unfold c1. destruct (mediaStream c) as [s|].
    - exists [StopTracks s]. cbn. repeat split; auto. repeat constructor. eauto.
    - exists []. rewrite app_nil_r. auto 10. }
  destruct E1 as [added [E1 [A1 [C1 [L1 R1]]]]].
  destruct getUserMedia as [err|stream].
  { apply (Failed err c1 added); auto. discriminate. }
  destruct (find isTypeSupported supportedTypes) as [mimeType|].
  2:{ cbn. repeat split; auto.
      - congruence.
      - intros s [= <-]. unfold performed. cbn. rewrite E1, <- app_assoc, skipn_app,
          skipn_all, Nat.sub_diag. cbn. apply in_or_app. right. now left.
      - unfold performed. cbn. rewrite E1, <- app_assoc, skipn_app, skipn_all,
          Nat.sub_diag. cbn. apply Forall_app. split; [exact A1|].
        repeat constructor. eauto. }
  destruct construct as [err|].
  { apply (Failed err _ added); cbn; auto. intros s [= <-]. reflexivity. }
  destruct start as [err|].
  { apply (Failed err _ added); cbn; auto. intros s [= <-]. reflexivity. }
  exfalso. destruct Fails as [[err F]|[F|[F|F]]]; congruence.
Qed.

(** *** The component over time *)

Lemma supported_extension (mimeType : jsstring) :
  In mimeType supportedTypes ->
  exists ext,
    fileExtension mimeType = Some ext
    /\ In (lit "recording." ++ ext)
          [lit "recording.webm"; lit "recording.ogg"; lit "recording.mp4";
           lit "recording.aac"].
Proof.
  intros [<-|[<-|[<-|[<-|[<-|[]]]]]]; eexists; (split; [vm_compute; reflexivity|]);
    vm_compute; tauto.
Qed.

Lemma Exchanges_app (before added : list ConversationMessage) :
  Exchanges before -> Exchanges added -> Exchanges (before ++ added).
Proof.
  intros B A. induction B; cbn [app]; [exact A| |].
  - now apply Exchanges_turn.
  - now apply Exchanges_error.
Qed.

Lemma startsWith_app (prefix rest : jsstring) :
  startsWith (prefix ++ rest) prefix = true.
Proof.
  induction prefix as [|x prefix IH]; cbn [app].
  - now destruct rest.
  - cbn [startsWith]. now rewrite N.eqb_refl, IH.
Qed.

Lemma Exchanges_errorTurn (error : Exception) : Exchanges [errorTurn error].
Proof.
  apply Exchanges_error;
    [reflexivity | reflexivity | apply startsWith_app | constructor].
Qed.

Lemma Exchanges_appended (response : Response) (you reply : ConversationMessage) :
  appended response = [you; reply] -> Exchanges [you; reply].
Proof.
  unfold appended.
  destruct (resp_json response) as [e|data]; [discriminate|].
  destruct (get data "userTranscript") as [e|userTranscript]; [discriminate|].
  destruct (get data "llmTextResponse") as [e|llmTextResponse]; [discriminate|].
  destruct (get data "audioBase64") as [e|audioBase64]; [discriminate|].
  destruct (as_string userTranscript) as [ut|]; [|discriminate].
  destruct (as_string llmTextResponse) as [lt|]; [|discriminate].
  intros [= <- <-]. apply Exchanges_turn; try reflexivity; [|constructor].
  cbn [text]. apply or_else_nonempty. discriminate.
Qed.

Lemma newBlob_size (chunks : list Blob) (type : jsstring) :
  chunks <> [] -> Forall (fun chunk => (0 < size chunk)%N) chunks ->
  (0 < size (newBlob chunks type))%N.
Proof.
  intros N F. destruct chunks as [|chunk chunks]; [congruence|].
  inversion F as [|? ? Z _]; subst. unfold size, newBlob in *. cbn in *.
  rewrite length_app. lia.
Qed.

Section Sessions.

Variable String_of : Value -> jsstring.

Abbreviation step := (Session.step String_of).
Abbreviation run := (Session.run String_of).

Lemma catchBlock_recorder (error : Exception) (c : Component) :
  mediaRecorder (catchBlock error c) = mediaRecorder c.
Proof.
  unfold catchBlock, releaseStream. cbn [mediaStream appendConversation setStatus].
  now destruct (mediaStream c).
Qed.

Lemma received_recorder (response : Response) (c : Component) :
  mediaRecorder (fst (received String_of response c)) = mediaRecorder c.
Proof.
  unfold received.
  destruct (resp_json response) as [e|data]; [reflexivity|].
  destruct (get data "userTranscript") as [e|userTranscript]; [reflexivity|].
  destruct (get data "llmTextResponse") as [e|llmTextResponse]; [reflexivity|].
  destruct (get data "audioBase64") as [e|audioBase64]; [reflexivity|].
  destruct (as_string userTranscript) as [ut|]; [|reflexivity].
  destruct (as_string llmTextResponse) as [lt|]; [|reflexivity].
  cbn [audioPlayer appendConversation setStatus].
  destruct (truthy_opt audioBase64), (audioPlayer c), (negb (eqb lt [])); reflexivity.
Qed.

Lemma tryCatch_recorder (fetch : FormData -> Exception + Response)
    (formData : FormData) (c : Component) :
  mediaRecorder (fst (Page.tryCatch fetch String_of formData c)) = mediaRecorder c.
Proof.
  unfold Page.tryCatch, tryBlock.
  destruct (fetch formData) as [error|response]; cbn [fst].
  - now rewrite catchBlock_recorder.
  - destruct (negb (ok response)); cbn [fst].
    + now rewrite catchBlock_recorder.
    + pose proof (received_recorder response (perform (Fetch formData) c)) as R.
      destruct (received String_of response (perform (Fetch formData) c))
        as [c' [error|playing]]; cbn [fst] in *.
      * now rewrite catchBlock_recorder.
      * exact R.
Qed.

Lemma atSubmission_recorder (c : Component) :
  mediaRecorder (atSubmission c) = mediaRecorder c.
Proof. unfold atSubmission, releaseStream. now destruct c as [? ? ? ? ? ? ? [?|] ?]. Qed.

Lemma released_harmless (c : Component) :
  Forall (fun e => match e with Fetch body => wellFormedRequest body | _ => True end)
         (released c).
Proof. unfold released. destruct (mediaStream c); repeat constructor. Qed.

Lemma stopped_recorder (fetch : FormData -> Exception + Response)
    (play : jsstring -> bool) (r : MediaRecorder) (c : Component) :
  mediaRecorder (Page.stopped fetch play String_of r c) = mediaRecorder c.
Proof.
  assert (S : forall playing c', mediaRecorder (settled play playing c') = mediaRecorder c').
  { intros [src|] c'; cbn; [destruct (play src)|]; reflexivity. }
  unfold Page.stopped.
  destruct (audioChunks c) as [|chunk chunks] eqn:A.
  { rewrite (@onstop_without_chunks fetch String_of r c A). rewrite S. cbn.
    apply atSubmission_recorder. }
  assert (NE : audioChunks c <> []) by congruence.
  destruct (fileExtension (mimeType r)) as [ext|] eqn:X.
  - rewrite (@onstop_submits fetch String_of r c ext NE X). rewrite S.
    destruct (@finallyBlock_keeps (closure r)
                (fst (Page.tryCatch fetch String_of (requestOf r c ext) (atSubmission c))))
      as [_ [_ K]].
    rewrite K, tryCatch_recorder. apply atSubmission_recorder.
  - rewrite (@onstop_without_extension fetch String_of r c NE X). rewrite S.
    apply atSubmission_recorder.
Qed.

(** A stop event of a recorder with a supported format keeps the component
    healthy. *)
Lemma stopped_healthy (fetch : FormData -> Exception + Response)
    (play : jsstring -> bool) (r : MediaRecorder) (c : Component) :
  In (mimeType r) supportedTypes -> healthy c ->
  healthy (Page.stopped fetch play String_of r c).
Proof.
  intros Supported (L & Rm & Ch & Ex & Ef).
  destruct (@supported_extension _ Supported) as [ext [X Name]].
  destruct (atSubmission_run c) as [Ms [Es [As [Cs _]]]].
  unfold healthy. rewrite stopped_recorder.
  destruct (audioChunks c) as [|chunk chunks] eqn:A.
  { unfold Page.stopped. rewrite (@onstop_without_chunks fetch String_of r c A). cbn.
    rewrite ?As, ?Cs, ?Es, ?A. repeat split; auto.
    apply Forall_app. split; [exact Ef | apply released_harmless]. }
  assert (NE : audioChunks c <> []) by congruence.
  destruct (@stopped_submits fetch play String_of r c ext NE X)
    as [C [E [_ [Lf [_ [K _]]]]]].
  destruct (@tryCatch_run fetch String_of (requestOf r c ext) (atSubmission c) Ms)
    as [_ [added [rest [Ct [Et Shape]]]]].
  rewrite C, E, Lf, K, Ct, Et, Cs, Es. repeat split; auto.
  - apply Exchanges_app; [exact Ex|].
    destruct Shape as [[e [-> _]]|[resp [you [reply [_ [_ [App [-> _]]]]]]]].
    + apply Exchanges_errorTurn.
    + eapply Exchanges_appended; eauto.
  - rewrite <- app_assoc. apply Forall_app. split; [exact Ef|].
    apply Forall_app. split; [apply released_harmless|]. constructor.
    + unfold wellFormedRequest, requestOf.
      cbn [fd_audio fd_filename fd_history]. repeat split.
      * apply newBlob_size; [exact NE | now rewrite A].
      * exact Supported.
      * exact Name.
      * apply historyForApi_length.
    + destruct Shape as [[e [_ [-> _]]]|[resp [you [reply [_ [_ [_ [_ [[-> _]|[src [-> _]]]]]]]]]]];
        repeat constructor.
Qed.

Lemma initial_healthy : healthy initial.
Proof. unfold healthy. cbn. repeat split; try constructor. discriminate. Qed.

(** Every handler keeps the component healthy. *)
Lemma step_healthy (e : Event) (c : Component) : healthy c -> healthy (step e c).
Proof.
  intros H. pose proof H as (L & Rm & Ch & Ex & Ef).
  destruct e as [getUserMedia isTypeSupported construct start | | data
                | answer played | | audioBase64 | ]; cbn [Session.step].
  - (* startRecording *)
    unfold startRecording. cbn [render r_isRecording].
    destruct (isRecording c); [exact H|].
    assert (Found : forall m, find isTypeSupported supportedTypes = Some m ->
                              In m supportedTypes)
      by (intros m F; now apply find_some in F).
    unfold startFailed, releaseStream, healthy in *.
    destruct c as [rec load conv st mr chunks player [held|] eff];
      cbn [isRecording isLoading conversation status mediaRecorder audioChunks
           audioPlayer mediaStream effects] in *;
      (destruct getUserMedia as [err|stream];
       [| destruct (find isTypeSupported supportedTypes) as [m|] eqn:F;
          [destruct construct as [err|]; [|destruct start as [err|]]|]]);
      cbn [isRecording isLoading conversation status mediaRecorder audioChunks
           audioPlayer mediaStream effects setStatus setIsRecording setIsLoading
           setMediaStream setMediaRecorder setAudioChunks perform mimeType];
      repeat split; auto;
      try (intros r [= <-]; cbn [mimeType]; auto);
      try constructor;
      repeat (apply Forall_app; split; auto; repeat constructor).
  - (* stopRecording *)
    unfold stopRecording. destruct (mediaRecorder c) as [r|] eqn:M; [|exact H].
    destruct (rec_state r); try exact H.
    unfold healthy. cbn [isLoading mediaRecorder audioChunks conversation effects
                         setStatus setMediaRecorder].
    repeat split; auto. intros r' [= <-]. cbn [mimeType]. apply (Rm _ eq_refl).
  - (* ondataavailable *)
    destruct (mediaRecorder c) as [r|] eqn:M; [|exact H].
    unfold ondataavailable. destruct (0 <? size data)%N eqn:Z; [|exact H].
    unfold healthy. cbn [isLoading mediaRecorder audioChunks conversation effects
                         setAudioChunks].
    repeat split; auto; [rewrite M; exact Rm|].
    apply Forall_app. split; [exact Ch|]. constructor; [|constructor].
    now apply N.ltb_lt.
  - (* onstop *)
    destruct (mediaRecorder c) as [r|] eqn:M; [|exact H].
    apply stopped_healthy; [apply (Rm _ eq_refl) | exact H].
  - (* onerror *)
    destruct (mediaRecorder c) as [r|] eqn:M; [|exact H].
    unfold onerror, releaseStream, healthy in *.
    destruct c as [rec load conv st mr chunks player [held|] eff];
      cbn [isLoading mediaRecorder audioChunks conversation effects mediaStream
           setStatus setIsLoading setIsRecording setMediaStream perform] in *;
      repeat split; auto; try (rewrite M; exact Rm);
      apply Forall_app; split; [exact Ef | repeat constructor].
  - (* replayAudio *)
    unfold replayAudio, healthy in *.
    destruct c as [rec load conv st mr chunks [src|] held eff];
      destruct (truthy_opt audioBase64);
      cbn [isLoading mediaRecorder audioChunks conversation effects audioPlayer
           setAudioPlayerSrc perform] in *;
      repeat split; auto;
      apply Forall_app; split; [exact Ef | repeat constructor].
  - (* unmount *)
    unfold unmount, detachPlayer, releaseStream, healthy in *.
    destruct c as [rec load conv st [[env m []]|] chunks player [held|] eff];
      cbn [isLoading mediaRecorder audioChunks conversation effects mediaStream
           audioPlayer setAudioPlayerSrc setMediaRecorder setMediaStream perform
           rec_state closure mimeType] in *;
      repeat split; auto;
      try (intros r [= <-]; cbn [mimeType]; apply (Rm _ eq_refl));
      try (apply Forall_app; split; [exact Ef | repeat constructor]).
Qed.

Lemma run_healthy (events : list Event) (c : Component) :
  healthy c -> healthy (run events c).
Proof.
  revert c. induction events as [|e events IH]; intros c H; cbn; [exact H|].
  apply IH, step_healthy, H.
Qed.

(** X24. Whatever happens to the component from its first render on, its
    transcript is a sequence of exchanges and Error turns: a user turn always
    has some text and is followed by its assistant turn, every Error turn
    begins with [Processing failed: ], and no System turn ever appears. *)
Theorem transcript_is_exchanges_and_errors (events : list Event) :
  Exchanges (conversation (run events initial)).
Proof. apply (run_healthy events initial_healthy). Qed.

(** X25. After any sequence of events the loading flag is down, and the
    recorder in place, if any, records in a format of the preference list,
    which has a file extension: the [split] of line 112 never throws, so a
    stop event cannot leave the component loading. *)
Theorem never_left_loading (events : list Event) :
  isLoading (run events initial) = false
  /\ forall r, mediaRecorder (run events initial) = Some r ->
               In (mimeType r) supportedTypes
               /\ exists ext, fileExtension (mimeType r) = Some ext.
Proof.
  destruct (run_healthy events initial_healthy) as (L & Rm & _).
  split; [exact L|]. intros r M. split; [now apply Rm|].
  destruct (@supported_extension _ (Rm r M)) as [ext [X _]]. eauto.
Qed.

(** X26. Every request the component ever sends carries at least one byte
    of audio, typed with a format of the preference list and named
    [recording.webm], [.ogg], [.mp4] or [.aac], and a history of at most 8
    entries. *)
Theorem requests_are_well_formed (events : list Event) :
  Forall (fun e => match e with
                   | Fetch body =>
                       (0 < size (fd_audio body))%N
                       /\ In (blob_type (fd_audio body)) supportedTypes
                       /\ In (fd_filename body)
                             [lit "recording.webm"; lit "recording.ogg";
                              lit "recording.mp4"; lit "recording.aac"]
                       /\ List.length (fd_history body) <= 8
                   | _ => True
                   end)
         (effects (run events initial)).
Proof.
  destruct (run_healthy events initial_healthy) as (_ & _ & _ & _ & Ef). exact Ef.
Qed.

(** X27. Only a stop event talks to the server or changes the transcript:
    starting, stopping, data, a recorder error, a replay and the unmount
    cleanup leave the transcript as it is and send nothing. *)
Theorem only_a_stop_event_sends (e : Event) (c : Component) :
  sends e = false ->
  conversation (step e c) = conversation c
  /\ Forall (fun x => is_fetch x = false) (performed c (step e c)).
Proof.
  intros S.
  destruct e as [getUserMedia isTypeSupported construct start | | data
                | answer played | | audioBase64 | ]; try discriminate;
    cbn [Session.step].
  - unfold startRecording, startFailed, releaseStream, performed.
    cbn [render r_isRecording].
    destruct c as [rec load conv st mr chunks player [held|] eff];
      destruct rec;
      (destruct getUserMedia as [err|stream];
       [| destruct (find isTypeSupported supportedTypes) as [m|];
          [destruct construct as [err|]; [|destruct start as [err|]]|]]);
      cbn [isRecording isLoading conversation status mediaRecorder audioChunks
           audioPlayer mediaStream effects setStatus setIsRecording setIsLoading
           setMediaStream setMediaRecorder setAudioChunks perform];
      (split; [reflexivity|]); rewrite <- ?app_assoc;
      first [rewrite skipn_all | rewrite skipn_app, skipn_all, Nat.sub_diag];
      cbn [app skipn]; repeat constructor.
  - unfold stopRecording, performed.
    destruct c as [rec load conv st [[env m []]|] chunks player held eff];
      cbn; (split; [reflexivity|]); rewrite skipn_all; constructor.
  - unfold ondataavailable, performed.
    destruct c as [rec load conv st [r|] chunks player held eff];
      cbn [mediaRecorder]; try destruct (0 <? size data)%N;
      cbn; (split; [reflexivity|]); rewrite skipn_all; constructor.
  - unfold onerror, releaseStream, performed.
    destruct c as [rec load conv st [r|] chunks player [held|] eff];
      cbn; (split; [reflexivity|]);
      first [rewrite skipn_all | rewrite skipn_app, skipn_all, Nat.sub_diag];
      cbn [app skipn]; repeat constructor.
  - unfold replayAudio, performed.
    destruct c as [rec load conv st mr chunks [src|] held eff];
      destruct (truthy_opt audioBase64);
      cbn; (split; [reflexivity|]);
      first [rewrite skipn_all | rewrite skipn_app, skipn_all, Nat.sub_diag];
      cbn [app skipn]; repeat constructor.
  - unfold unmount, detachPlayer, releaseStream, performed.
    destruct c as [rec load conv st [[env m []]|] chunks player [held|] eff];
      cbn; (split; [reflexivity|]);
      first [rewrite skipn_all | rewrite skipn_app, skipn_all, Nat.sub_diag];
      cbn [app skipn]; repeat constructor.
Qed.

End Sessions.

(** *** Concrete runs *)

Lemma fileExtension_is_subtype_witness :
  fileExtension (lit "audio" ++ 47%N :: lit "webm") = Some (lit "webm")
  /\ fileExtension (lit "audio" ++ 47%N :: lit "webm" ++ 59%N :: lit "codecs=opus")
     = Some (lit "webm").
Proof.
  apply (@fileExtension_is_subtype (lit "audio") (lit "webm") (lit "codecs=opus"));
    vm_compute; intuition discriminate.
Defined.

Lemma historyForApi_forgets_older_turns_witness :
  historyForApi ([Fixture.hi; Fixture.failed] ++ Fixture.eightTurns)
  = historyForApi Fixture.eightTurns.
Proof.
  apply (@historyForApi_forgets_older_turns [Fixture.hi; Fixture.failed]
           Fixture.eightTurns).
  vm_compute. repeat constructor.
Defined.

(** Seven user turns and then a failed one: seven entries are sent. *)
Lemma historyForApi_slots_witness :
  List.length (historyForApi (repeat Fixture.hi 7 ++ [Fixture.failed])) + 1 = 8.
Proof.
  apply (@historyForApi_slots (repeat Fixture.hi 7 ++ [Fixture.failed])).
  vm_compute. repeat constructor.
Defined.

Lemma stop_sends_one_request_witness :
  exists rest,
    performed Fixture.recorded
      (Page.stopped Fixture.offline (fun _ => true) Fixture.String_of
         Fixture.webm Fixture.recorded)
    = released Fixture.recorded ++ Fetch Fixture.resent :: rest
    /\ (rest = [] \/ exists src, rest = [Play src]).
Proof.
  apply (@stop_sends_one_request Fixture.offline (fun _ => true) Fixture.String_of
           Fixture.webm Fixture.recorded (lit "webm")).
  - discriminate.
  - reflexivity.
Defined.

Lemma rejected_fetch_adds_error_turn_witness :
  conversation (Page.stopped Fixture.offline (fun _ => true) Fixture.String_of
                  Fixture.webm Fixture.recorded)
  = [Fixture.hi; Fixture.failed; Fixture.failed].
Proof.
  apply (@rejected_fetch_adds_error_turn Fixture.offline (fun _ => true)
           Fixture.String_of Fixture.webm Fixture.recorded (lit "webm")
           (TypeError "Failed to fetch")).
  - discriminate.
  - reflexivity.
  - reflexivity.
Defined.


(** The question about the weather, answered by the route and shown by the
    client. *)
Lemma route_response_becomes_turns_witness :
  conversation
    (Page.stopped
       (fun _ => inr (delivered (lit "OK")
                        (snd (Fixture.serve (Fixture.hears "What's the weather?")
                                (Fixture.answers "I don't have weather access.")
                                (Fixture.upload Fixture.emptyHistory)))))
       (fun _ => true) Fixture.String_of Fixture.webm Fixture.recorded)
  = [ Fixture.hi; Fixture.failed;
      {| role := You; text := lit "What's the weather?"; audio := None |};
      {| role := Assistant; text := lit "I don't have weather access.";
         audio := Some (Str (lit "SUQz")) |} ].
Proof.
  apply (@route_response_becomes_turns
           Fixture.JSON_parse Fixture.toBase64
           (Fixture.hears "What's the weather?")
           (Fixture.answers "I don't have weather access.") Fixture.speaks
           (fun _ => true) Fixture.String_of
           (Fixture.upload Fixture.emptyHistory) (lit "OK")
           Fixture.webm Fixture.recorded (lit "webm")).
  - discriminate.
  - reflexivity.
Defined.

Lemma route_audio_is_played_witness :
  performed Fixture.recorded
    (Page.stopped
       (fun _ => inr (delivered (lit "OK")
                        (snd (Fixture.serve (Fixture.hears "What's the weather?")
                                (Fixture.answers "I don't have weather access.")
                                (Fixture.upload Fixture.emptyHistory)))))
       (fun _ => false) Fixture.String_of Fixture.webm Fixture.recorded)
  = [Fetch Fixture.resent; Play (lit "data:audio/mp3;base64,SUQz")]
  /\ audioPlayer
       (Page.stopped
          (fun _ => inr (delivered (lit "OK")
                           (snd (Fixture.serve (Fixture.hears "What's the weather?")
                                   (Fixture.answers "I don't have weather access.")
                                   (Fixture.upload Fixture.emptyHistory)))))
          (fun _ => false) Fixture.String_of Fixture.webm Fixture.recorded)
     = Some (lit "data:audio/mp3;base64,SUQz")
  /\ status
       (Page.stopped
          (fun _ => inr (delivered (lit "OK")
                           (snd (Fixture.serve (Fixture.hears "What's the weather?")
                                   (Fixture.answers "I don't have weather access.")
                                   (Fixture.upload Fixture.emptyHistory)))))
          (fun _ => false) Fixture.String_of Fixture.webm Fixture.recorded)
     = lit "Received response. Click 'Replay Audio' to listen.".
Proof.
  apply (@route_audio_is_played
           Fixture.JSON_parse Fixture.toBase64
           (Fixture.hears "What's the weather?")
           (Fixture.answers "I don't have weather access.") Fixture.speaks
           (fun _ => false) Fixture.String_of
           (Fixture.upload Fixture.emptyHistory) (lit "OK")
           Fixture.webm Fixture.recorded (lit "webm")).
  - discriminate.
  - reflexivity.
  - discriminate.
Defined.

(** A browser that records MP4 only: the three formats before MP4 are
    passed over. *)
Lemma startRecording_selects_first_supported_witness :
  exists before mimeType after,
    supportedTypes = before ++ mimeType :: after
    /\ Forall (fun type => Fixture.onlyMp4 type = false) before
    /\ Fixture.onlyMp4 mimeType = true
    /\ mediaRecorder
         (startRecording (render initial) (inr 1%N) Fixture.onlyMp4 None None initial)
       = Some {| closure := render initial; mimeType := mimeType;
                 rec_state := recording |}.
Proof.
  destruct (@startRecording_selects_first_supported
              (render initial) 1%N Fixture.onlyMp4 initial eq_refl)
    as [[Unsupported _]|[before [mimeType [after [E [U [S [Installed _]]]]]]]].
  - exfalso. apply Forall_forall with (x := lit "audio/mp4") in Unsupported.
    + discriminate Unsupported.
    + vm_compute. tauto.
  - exists before, mimeType, after. auto.
Defined.

(** A refused permission prompt on the first click. *)
Lemma failed_start_releases_witness :
  mediaStream (startRecording (render initial) (inl Fixture.denied)
                 (fun _ => true) None None initial) = None
  /\ isRecording (startRecording (render initial) (inl Fixture.denied)
                    (fun _ => true) None None initial) = false
  /\ startsWith (status (startRecording (render initial) (inl Fixture.denied)
                           (fun _ => true) None None initial))
                (lit "Error") = true.
Proof.
  destruct (@failed_start_releases (inl Fixture.denied) (fun _ => true) None None
              initial eq_refl (or_introl (ex_intro _ Fixture.denied eq_refl)))
    as [M [R [S _]]].
  auto.
Defined.

Lemma only_a_stop_event_sends_witness :
  conversation (Session.step Fixture.String_of ClickStop Fixture.recorded)
  = conversation Fixture.recorded
  /\ Forall (fun x => is_fetch x = false)
            (performed Fixture.recorded
               (Session.step Fixture.String_of ClickStop Fixture.recorded)).
Proof.
  apply (@only_a_stop_event_sends Fixture.String_of ClickStop Fixture.recorded).
  reflexivity.
Defined.

End PageEdges.
